(** * LegoRcCar: the gamepad-to-motor control script [Code.py]

    A shallow embedding of the EV3 remote-control script and the proofs of
    its steering, trim, drive and lifecycle properties.

    The script is a flat Python module: a block of constants, one helper
    ([normalize_steering]) that reads the global [steering_trim], the
    opening of the input device, and one event loop wrapped in
    [try / except KeyboardInterrupt / finally].  The embedding keeps that
    shape:

    - Python integers are [Z]; the one float computation of the script
      (the proportional steering angle) is carried out on Rocq's primitive
      binary64 floats, which are the IEEE 754 doubles CPython uses;
    - the global [steering_trim] is the state of a small monad [M] that also
      records the calls made on the motors, the speaker and [print] (the
      trace of [effect]s) and carries Python exceptions;
    - what the script reads from outside (the result of opening the device,
      the events of [read_loop], the steering motor's [position] and the way
      the loop ends) is an explicit input of the model.

    The script targets ev3dev's Python 3.5, where the module-level
    [global steering_trim] statement inside the [try] is a no-op. *)

From Stdlib Require Import ZArith List String Ascii Bool Lia DecimalString.
From Stdlib Require Floats Uint63.
Import ListNotations.

#[local] Open Scope bool_scope.
#[local] Open Scope string_scope.
#[local] Open Scope Z_scope.

(* ================================================================== *)
(** * Configuration constants (Code.py, lines 7-29) *)

Definition CONTROLLER_PATH : string := "/dev/input/event2".
Definition ACCEL_CODE : Z := 313.
Definition REVERSE_CODE : Z := 314.
Definition BRAKE_CODE : Z := 312.
Definition HORN_CODE : Z := 304.
Definition HORN2_CODE : Z := 305.
Definition STOP_SOUND_CODE : Z := 308.
Definition STEERING_AXIS_CODE : Z := 0.

Definition TRIM_AXIS_CODE : Z := 16.
Definition TRIM_STEP : Z := 1.
Definition MAX_TRIM : Z := 45.

Definition FULL_SPEED : Z := 100.
Definition AXIS_MIN : Z := 0.
Definition AXIS_MAX : Z := 255.
Definition AXIS_MID : Z := 128.
Definition STEERING_DEADZONE : Z := 10.
Definition STEERING_MAX_ANGLE : Z := 90.
Definition STEERING_SPEED : Z := 720.
Definition STEERING_HOME_POSITION : Z := 0.

(** The two event types the loop tests, as [evdev.ecodes] defines them
    (Linux [input-event-codes.h]). *)
Definition EV_KEY : Z := 1.
Definition EV_ABS : Z := 3.

(* ================================================================== *)
(** * Python values and exceptions *)

(** The exceptions that can travel through the script. *)
Inductive exn : Type :=
| FileNotFoundError
| PermissionError
| KeyboardInterrupt
| SystemExit (code : Z)
| OverflowError
| ValueError
| OSError.

Inductive result (A : Type) : Type :=
| Ok (a : A)
| Raise (e : exn).
Arguments Ok {A} a.
Arguments Raise {A} e.

(** Python's floats are IEEE 754 binary64 with round-to-nearest-even, as are
    the kernel's primitive floats. *)
Module Py.

(** [float(z)], the implicit conversion of an [int] operand in mixed
    arithmetic.  Exact for [|z| <= 2^53], which covers every value the
    script handles (event values are 32-bit, the trim is at most 45).
    Above 2^53 the conversion rounds and from 2^63 on [Uint63.of_Z] wraps,
    so the definition follows Python on the values an input event can
    carry and not on arbitrary integers. *)
Definition float_of_int (z : Z) : PrimFloat.float :=
  if z <? 0
  then PrimFloat.opp (PrimFloat.of_uint63 (Uint63.of_Z (- z)))
  else PrimFloat.of_uint63 (Uint63.of_Z z).

(** [a / b] on two ints: true division, a float.  Both operands are
    exactly representable, so the correctly rounded quotient is the
    float quotient. *)
Definition truediv (a b : Z) : PrimFloat.float :=
  PrimFloat.div (float_of_int a) (float_of_int b).

(** [x * n] and [x + n] with a float and an int. *)
Definition mul_int (x : PrimFloat.float) (n : Z) : PrimFloat.float :=
  PrimFloat.mul x (float_of_int n).
Definition add_int (x : PrimFloat.float) (n : Z) : PrimFloat.float :=
  PrimFloat.add x (float_of_int n).

(** [int(x)] on a float: truncation toward zero; [OverflowError] on an
    infinity and [ValueError] on a NaN. *)
Definition int (x : PrimFloat.float) : result Z :=
  match FloatOps.Prim2SF x with
  | SpecFloat.S754_zero _ => Ok 0
  | SpecFloat.S754_infinity _ => Raise OverflowError
  | SpecFloat.S754_nan => Raise ValueError
  | SpecFloat.S754_finite s m e =>
      let magnitude :=
        match e with
        | Z0 => Zpos m
        | Zpos k => Z.shiftl (Zpos m) (Zpos k)
        | Zneg k => Z.shiftr (Zpos m) (Zpos k)
        end in
      Ok (if s then - magnitude else magnitude)
  end.

(** ["{}".format(z)] on an int: its decimal numeral. *)
Definition str (z : Z) : string := NilEmpty.string_of_int (Z.to_int z).

(** [needle in haystack] on strings. *)
Definition contains (needle haystack : string) : bool :=
  match String.index 0 needle haystack with
  | Some _ => true
  | None => false
  end.

End Py.

(* ================================================================== *)
(** * The steering normalizer (Code.py, lines 41-57) *)

(** The deadzone test, written twice in the source with the same text:
    [AXIS_MID - STEERING_DEADZONE <= raw_value <= AXIS_MID + STEERING_DEADZONE]. *)
Definition is_centered_on_stick (raw_value : Z) : bool :=
  (AXIS_MID - STEERING_DEADZONE <=? raw_value)
  && (raw_value <=? AXIS_MID + STEERING_DEADZONE).

(** [normalize_steering(raw_value)], with the global [steering_trim] it reads
    as its first argument. *)
Definition normalize_steering (steering_trim raw_value : Z) : result Z :=
  if is_centered_on_stick raw_value then
    Ok steering_trim
  else
    let normalized_val := raw_value - AXIS_MID in
    let target_angle :=
      Py.mul_int (Py.truediv normalized_val (AXIS_MAX - AXIS_MID))
                 STEERING_MAX_ANGLE in
    Py.int (Py.add_int target_angle steering_trim).

(** The same computation over the exact rationals: the signed offset from
    the midpoint scaled by 90/127, plus the trim, truncated toward zero
    ([Z.quot] truncates toward zero).  This is what the specification
    describes; [normalize_steering_exact] below shows that the float
    computation agrees with it on every axis value and every trim. *)
Definition normalize_steering_spec (steering_trim raw_value : Z) : Z :=
  if is_centered_on_stick raw_value then steering_trim
  else
    Z.quot (STEERING_MAX_ANGLE * (raw_value - AXIS_MID)
            + (AXIS_MAX - AXIS_MID) * steering_trim)
           (AXIS_MAX - AXIS_MID).

(** Membership in the two ranges the script works on. *)
Definition axis_value (raw_value : Z) : Prop :=
  AXIS_MIN <= raw_value <= AXIS_MAX.
Definition trim_ok (steering_trim : Z) : Prop :=
  - MAX_TRIM <= steering_trim <= MAX_TRIM.

(** [zrange lo n] is [lo, lo+1, ..., lo+n-1]. *)
Fixpoint zrange (lo : Z) (n : nat) : list Z :=
  match n with
  | O => []
  | S k => lo :: zrange (lo + 1) k
  end.

Definition agrees_with_spec (steering_trim raw_value : Z) : bool :=
  match normalize_steering steering_trim raw_value with
  | Ok v => v =? normalize_steering_spec steering_trim raw_value
  | Raise _ => false
  end.

(* ================================================================== *)
(** * What the script does to the outside world *)

Inductive stop_action : Type := coast | brake.

(** One constructor per call the script makes on its collaborators:
    [print], the [Sound] speaker, the [MoveTank] pair of drive motors and
    the steering [MediumMotor]. *)
Inductive effect : Type :=
| Print (text : string)
| Speak (text : string)
| PlayFile (path : string) (play_type : Z)
| StopSound
| TankOn (left_speed right_speed : Z)
| TankOff (with_brake : bool)
| RunToAbsPos (position_sp speed_sp : Z) (stop : stop_action)
| SetStopAction (stop : stop_action)
| SteeringReset
| SteeringOff.

(** An [evdev] input event, reduced to the three fields the loop reads. *)
Record event : Type := Event { ev_type : Z; ev_code : Z; ev_value : Z }.

(* ================================================================== *)
(** * The monad of the script

    A computation runs from a value of the global [steering_trim]; it
    leaves the effects it emitted (oldest first), a value or the exception
    it raised, and the value of [steering_trim] at that point. *)

Record outcome (A : Type) : Type := Outcome {
  emitted : list effect;
  returned : result A;
  trim_after : Z
}.
Arguments Outcome {A} emitted returned trim_after.
Arguments emitted {A} o.
Arguments returned {A} o.
Arguments trim_after {A} o.

Definition M (A : Type) : Type := Z -> outcome A.

Definition ret {A : Type} (a : A) : M A :=
  fun s => Outcome [] (Ok a) s.

Definition bind {A B : Type} (m : M A) (f : A -> M B) : M B :=
  fun s =>
    let r := m s in
    match returned r with
    | Raise e => Outcome (emitted r) (Raise e) (trim_after r)
    | Ok a =>
        let r' := f a (trim_after r) in
        Outcome (emitted r ++ emitted r') (returned r') (trim_after r')
    end.

Declare Scope py_scope.
Delimit Scope py_scope with py.
Notation "x <- m ;; k" := (bind m (fun x => k))
  (at level 61, m at next level, right associativity) : py_scope.
Notation "m ;; k" := (bind m (fun _ => k))
  (at level 61, right associativity) : py_scope.
#[local] Open Scope py_scope.

Definition emit (e : effect) : M unit :=
  fun s => Outcome [e] (Ok tt) s.

Definition raise {A : Type} (e : exn) : M A :=
  fun s => Outcome [] (Raise e) s.

Definition get_trim : M Z :=
  fun s => Outcome [] (Ok s) s.

Definition set_trim (v : Z) : M unit :=
  fun _ => Outcome [] (Ok tt) v.

Definition lift {A : Type} (r : result A) : M A :=
  fun s => Outcome [] r s.

Definition pass : M unit := ret tt.

(** [try: body  except ...: handler]: the handler receives the exception
    and re-raises the ones no clause catches. *)
Definition try_except {A : Type} (body : M A) (handler : exn -> M A) : M A :=
  fun s =>
    let r := body s in
    match returned r with
    | Ok _ => r
    | Raise e =>
        let r' := handler e (trim_after r) in
        Outcome (emitted r ++ emitted r') (returned r') (trim_after r')
    end.

(** [try: body  finally: cleanup]: the cleanup always runs; the outcome of
    the body stands unless the cleanup raises itself. *)
Definition try_finally {A : Type} (body : M A) (cleanup : M unit) : M A :=
  fun s =>
    let r := body s in
    let r' := cleanup (trim_after r) in
    Outcome (emitted r ++ emitted r')
            (match returned r' with
             | Ok _ => returned r
             | Raise e => Raise e
             end)
            (trim_after r').

(* ================================================================== *)
(** * The body of the event loop (Code.py, lines 80-151) *)

(** The absolute-position command every steering move uses. *)
Definition run_to_abs_pos (position_sp : Z) : M unit :=
  emit (RunToAbsPos position_sp STEERING_SPEED coast).

(** Lines 81-93.  [position] is what [steering_motor.position] reads when
    the script asks. *)
Definition steering_branch (position : Z) (e : event) : M unit :=
  steering_trim <- get_trim ;;
  target_angle <- lift (normalize_steering steering_trim (ev_value e)) ;;
  if is_centered_on_stick (ev_value e) then
    let current_position := position in
    if 1 <? Z.abs (current_position - target_angle)
    then run_to_abs_pos target_angle
    else pass
  else
    run_to_abs_pos target_angle.

(** Lines 96-110. *)
Definition trim_branch (e : event) : M unit :=
  steering_trim <- get_trim ;;
  (if ev_value e =? -1 then set_trim (steering_trim - TRIM_STEP)
   else if ev_value e =? 1 then set_trim (steering_trim + TRIM_STEP)
   else pass) ;;
  steering_trim <- get_trim ;;
  set_trim (Z.max (- MAX_TRIM) (Z.min MAX_TRIM steering_trim)) ;;
  steering_trim <- get_trim ;;
  emit (Print ("Steering Trim updated: " ++ Py.str steering_trim
               ++ " degrees")) ;;
  emit (Speak ("Trim " ++ Py.str steering_trim ++ " degrees")) ;;
  run_to_abs_pos steering_trim.

(** Lines 113-151. *)
Definition key_branch (e : event) : M unit :=
  if ev_code e =? ACCEL_CODE then
    if ev_value e =? 1 then emit (TankOn FULL_SPEED FULL_SPEED)
    else if ev_value e =? 0 then emit (TankOff false)
    else pass
  else if ev_code e =? REVERSE_CODE then
    if ev_value e =? 1 then emit (TankOn (- FULL_SPEED) (- FULL_SPEED))
    else if ev_value e =? 0 then emit (TankOff false)
    else pass
  else if ev_code e =? BRAKE_CODE then
    if ev_value e =? 1 then emit (TankOff true)
    else if ev_value e =? 0 then emit (TankOff false)
    else pass
  else if ev_code e =? HORN_CODE then
    if ev_value e =? 1 then emit (PlayFile "/home/robot/VSCODE/Horn.wav" 1)
    else pass
  else if ev_code e =? HORN2_CODE then
    if ev_value e =? 1 then emit (PlayFile "/home/robot/VSCODE/Horn2.wav" 1)
    else pass
  else if ev_code e =? STOP_SOUND_CODE then
    if ev_value e =? 1 then emit StopSound
    else pass
  else pass.

(** One iteration of [for event in dev.read_loop()]. *)
Definition handle_event (position : Z) (e : event) : M unit :=
  if (ev_type e =? EV_ABS) && (ev_code e =? STEERING_AXIS_CODE) then
    steering_branch position e
  else if (ev_type e =? EV_ABS) && (ev_code e =? TRIM_AXIS_CODE)
          && negb (ev_value e =? 0) then
    trim_branch e
  else if ev_type e =? EV_KEY then
    key_branch e
  else pass.

(* ================================================================== *)
(** * The loop and the script around it (Code.py, lines 31-37 and 61-161) *)

(** How the iteration over [dev.read_loop()] ends once the events at hand
    are consumed.  An operator interrupt can arrive while the generator
    blocks or in the middle of an iteration: at the boundary of one of its
    calls ([InterruptedHandling]), or, in a D-pad iteration, between the
    mutation of lines 99-102 and the clamp of line 104
    ([InterruptedBeforeClamp]). *)
Inductive loop_end : Type :=
| Exhausted
| InterruptedWaiting
| InterruptedHandling (position : Z) (e : event) (calls_done : nat)
| InterruptedBeforeClamp (e : event)
| ReadFailed.

(** What [steering_trim] holds once lines 99-102 have run for an event and
    line 104 has not: the mutated, not yet clamped value.  For an event the
    D-pad branch does not take, the trim as it was. *)
Definition unclamped_trim (e : event) (steering_trim : Z) : Z :=
  if (ev_type e =? EV_ABS) && (ev_code e =? TRIM_AXIS_CODE)
     && negb (ev_value e =? 0)
  then
    if ev_value e =? -1 then steering_trim - TRIM_STEP
    else if ev_value e =? 1 then steering_trim + TRIM_STEP
    else steering_trim
  else steering_trim.

(** An iteration cut short by [KeyboardInterrupt] before the clamp: no call
    has been made and the global keeps the unclamped value, which neither
    the [except] nor the [finally] clause touches. *)
Definition interrupted_before_clamp (e : event) : M unit :=
  fun s => Outcome [] (Raise KeyboardInterrupt) (unclamped_trim e s).

(** An iteration cut short by [KeyboardInterrupt] after [calls_done] of its
    calls on the outside world: before the first call the trim is still the
    one the iteration started from, after it the clamped one. *)
Definition interrupted_after (calls_done : nat) (iteration : M unit)
  : M unit :=
  fun s =>
    let r := iteration s in
    Outcome (firstn calls_done (emitted r))
            (Raise KeyboardInterrupt)
            (match calls_done with O => s | S _ => trim_after r end).

(** [for event in dev.read_loop(): ...]: each event comes with the
    position the steering motor reports at that moment. *)
Fixpoint read_loop (events : list (Z * event)) (stop : loop_end) : M unit :=
  match events with
  | (position, e) :: rest =>
      handle_event position e ;; read_loop rest stop
  | [] =>
      match stop with
      | Exhausted => pass
      | InterruptedWaiting => raise KeyboardInterrupt
      | InterruptedHandling position e calls_done =>
          interrupted_after calls_done (handle_event position e)
      | InterruptedBeforeClamp e => interrupted_before_clamp e
      | ReadFailed => raise OSError
      end
  end.

(** The three lines that end both the [except] and the [finally] clause. *)
Definition shutdown_sequence : list effect :=
  [TankOff false; SetStopAction brake; SteeringOff].

Definition shutdown : M unit :=
  emit (TankOff false) ;;
  emit (SetStopAction brake) ;;
  emit SteeringOff.

(** The result of [InputDevice(CONTROLLER_PATH)]. *)
Inductive open_result : Type :=
| Opened (name : string)
| NotFound
| Denied.

Definition InputDevice (o : open_result) : M string :=
  match o with
  | Opened name => ret name
  | NotFound => raise FileNotFoundError
  | Denied => raise PermissionError
  end.

Definition sys_exit {A : Type} (code : Z) : M A := raise (SystemExit code).

Definition newline : string := String (ascii_of_nat 10) EmptyString.

Definition attempting_message : string :=
  "Attempting to open controller at " ++ CONTROLLER_PATH ++ "...".
Definition not_found_message : string :=
  "Error: Controller not found at " ++ CONTROLLER_PATH
  ++ ". Check your USB connection and path.".
Definition permission_message : string :=
  "Error: Permission denied. You must run the script with 'sudo'.".
Definition ready_message : string :=
  "Controller ready. ZR/Select for Drive. ZL for Brake. D-Pad Left/Right for Trim. A for Horn, B for Horn 2, X to Stop Sound.".
Definition interrupted_message : string :=
  newline ++ "Program interrupted. Stopping motors.".

(** Line 32. *)
Definition steering_trim_initial : Z := 0.

(** Lines 36-37 and 61-70: the motor set-up and the opening of the
    controller, outside the guarded loop. *)
Definition setup (o : open_result) : M unit :=
  emit (SetStopAction coast) ;;
  emit SteeringReset ;;
  emit (Print attempting_message) ;;
  try_except
    (name <- InputDevice o ;;
     emit (Print ("Successfully connected to: " ++ name)))
    (fun err =>
       match err with
       | FileNotFoundError => emit (Print not_found_message) ;; sys_exit 1
       | PermissionError => emit (Print permission_message) ;; sys_exit 1
       | _ => raise err
       end).

(** Lines 75-161: the loop under its [except KeyboardInterrupt] and
    [finally] clauses. *)
Definition guarded_loop (events : list (Z * event)) (stop : loop_end)
  : M unit :=
  try_finally
    (try_except
       (read_loop events stop)
       (fun err =>
          match err with
          | KeyboardInterrupt =>
              emit (Print interrupted_message) ;; shutdown
          | _ => raise err
          end))
    shutdown.

Definition script (o : open_result) (events : list (Z * event))
  (stop : loop_end) : M unit :=
  setup o ;;
  emit (Print ready_message) ;;
  guarded_loop events stop.

(** A run of the program, from the initial value of the global. *)
Definition main (o : open_result) (events : list (Z * event))
  (stop : loop_end) : outcome unit :=
  script o events stop steering_trim_initial.

(** The status the interpreter exits with: [sys.exit(code)] gives [code],
    any other uncaught exception gives 1. *)
Definition exit_status {A : Type} (r : outcome A) : Z :=
  match returned r with
  | Ok _ => 0
  | Raise (SystemExit code) => code
  | Raise _ => 1
  end.

(** Events as the controller sends them. *)
Definition steering_event (raw_value : Z) : event :=
  Event EV_ABS STEERING_AXIS_CODE raw_value.
Definition trim_event (value : Z) : event :=
  Event EV_ABS TRIM_AXIS_CODE value.
Definition key_event (code value : Z) : event :=
  Event EV_KEY code value.

(* ================================================================== *)
(** * Notions used in the statements *)

(** The clamp of line 104. *)
Definition clamp_trim (steering_trim : Z) : Z :=
  Z.max (- MAX_TRIM) (Z.min MAX_TRIM steering_trim).

(** The trim the D-pad branch stores for an event value. *)
Definition adjusted_trim (steering_trim value : Z) : Z :=
  clamp_trim (if value =? -1 then steering_trim - TRIM_STEP
              else if value =? 1 then steering_trim + TRIM_STEP
              else steering_trim).

Definition trim_announcement (steering_trim : Z) : list effect :=
  [Print ("Steering Trim updated: " ++ Py.str steering_trim ++ " degrees");
   Speak ("Trim " ++ Py.str steering_trim ++ " degrees");
   RunToAbsPos steering_trim STEERING_SPEED coast].

(** The steering command an axis event leads to, given the target angle. *)
Definition steering_command (position target_angle raw_value : Z)
  : list effect :=
  if is_centered_on_stick raw_value then
    if 1 <? Z.abs (position - target_angle)
    then [RunToAbsPos target_angle STEERING_SPEED coast]
    else []
  else [RunToAbsPos target_angle STEERING_SPEED coast].

(** A computation that preserves a property of [steering_trim], however
    it ends; and the instance the script is about. *)
Definition preserves {A : Type} (P : Z -> Prop) (m : M A) : Prop :=
  forall s, P s -> P (trim_after (m s)).

Definition keeps_trim {A : Type} (m : M A) : Prop := preserves trim_ok m.

(** An ending of the loop that leaves no mutation of the trim unclamped:
    every ending but the interrupt between lines 99-102 and line 104. *)
Definition clamp_pending (stop : loop_end) : bool :=
  match stop with
  | InterruptedBeforeClamp _ => true
  | _ => false
  end.


(** A trace whose last three calls are the shutdown sequence: the drive
    outputs stopped without braking, the steering motor's stop behaviour
    set to braking, the steering motor switched off. *)
Definition ends_with_shutdown (trace : list effect) : Prop :=
  exists before, trace = (before ++ shutdown_sequence)%list.

(** The calls of the shutdown sequence, and the calls that set a motor in
    motion. *)
Definition shutdown_call (e : effect) : bool :=
  match e with
  | TankOff _ | SetStopAction brake | SteeringOff => true
  | _ => false
  end.

Definition motion_call (e : effect) : bool :=
  match e with
  | TankOn _ _ | RunToAbsPos _ _ _ => true
  | _ => false
  end.

(* ================================================================== *)
(** * Notions used for the rest of the script *)

(** The key codes the loop has a branch for (lines 116-149). *)
Definition bound_key (code : Z) : bool :=
  (code =? ACCEL_CODE) || (code =? REVERSE_CODE) || (code =? BRAKE_CODE)
  || (code =? HORN_CODE) || (code =? HORN2_CODE)
  || (code =? STOP_SOUND_CODE).

(** The events one of the three branches of the loop can act on. *)
Definition recognized (e : event) : bool :=
  ((ev_type e =? EV_ABS)
   && ((ev_code e =? STEERING_AXIS_CODE) || (ev_code e =? TRIM_AXIS_CODE)))
  || ((ev_type e =? EV_KEY) && bound_key (ev_code e)).

(** An event that, if it is a steering-axis event, carries a value of the
    axis range [AXIS_MIN, AXIS_MAX]. *)
Definition axis_event_ok (e : event) : bool :=
  negb ((ev_type e =? EV_ABS) && (ev_code e =? STEERING_AXIS_CODE))
  || ((AXIS_MIN <=? ev_value e) && (ev_value e <=? AXIS_MAX)).

Definition events_ok (events : list (Z * event)) : bool :=
  forallb (fun pe => axis_event_ok (snd pe)) events.

Definition stop_ok (stop : loop_end) : bool :=
  match stop with
  | InterruptedHandling _ e _ => axis_event_ok e
  | _ => true
  end.

(** A steering command within [STEERING_MAX_ANGLE + MAX_TRIM] degrees of
    zero, at the fixed speed, coasting at rest. *)
Definition steering_call_ok (e : effect) : bool :=
  match e with
  | RunToAbsPos position_sp speed_sp coast =>
      (- (STEERING_MAX_ANGLE + MAX_TRIM) <=? position_sp)
      && (position_sp <=? STEERING_MAX_ANGLE + MAX_TRIM)
      && (speed_sp =? STEERING_SPEED)
  | RunToAbsPos _ _ brake => false
  | _ => true
  end.

(** A drive command with both outputs at the same full speed. *)
Definition drive_call_ok (e : effect) : bool :=
  match e with
  | TankOn left_speed right_speed =>
      (left_speed =? right_speed)
      && ((left_speed =? FULL_SPEED) || (left_speed =? - FULL_SPEED))
  | _ => true
  end.

(** The trim after [n] D-pad events of one value, each with the motor at
    [position]. *)
Definition press_trim (position value : Z) (n : nat) (steering_trim : Z)
  : Z :=
  Nat.iter n (fun s => trim_after (handle_event position (trim_event value) s))
           steering_trim.

(* ================================================================== *)
(** * The float computation is exact on the operating range *)

Lemma forallb_zrange (f : Z -> bool) (n : nat) : forall lo z,
  forallb f (zrange lo n) = true ->
  lo <= z < lo + Z.of_nat n -> f z = true.
Proof.
  induction n as [|n IH]; intros lo z Hall Hz.
  - simpl in Hz. lia.
  - cbn [zrange forallb] in Hall.
    apply andb_true_iff in Hall as [Hlo Hrest].
    destruct (Z.eq_dec z lo) as [->|Hne]; [exact Hlo|].
    apply (IH (lo + 1)); [exact Hrest | lia].
Qed.

(** All 91 * 256 pairs of a trim and an axis value, evaluated. *)
Lemma agrees_everywhere :
  forallb (fun t => forallb (agrees_with_spec t) (zrange AXIS_MIN 256))
          (zrange (- MAX_TRIM) 91) = true.
Proof. vm_compute. reflexivity. Qed.

(** The float computation is exact on the whole operating range. *)
Lemma normalize_steering_exact (steering_trim raw_value : Z) :
  trim_ok steering_trim -> axis_value raw_value ->
  normalize_steering steering_trim raw_value
  = Ok (normalize_steering_spec steering_trim raw_value).
Proof.
  intros Ht Hr.
  assert (H : agrees_with_spec steering_trim raw_value = true).
  { apply (forallb_zrange (agrees_with_spec steering_trim) 256 AXIS_MIN).
    - apply (forallb_zrange
               (fun t => forallb (agrees_with_spec t) (zrange AXIS_MIN 256))
               91 (- MAX_TRIM) steering_trim agrees_everywhere).
      unfold trim_ok, MAX_TRIM in *. lia.
    - unfold axis_value, AXIS_MIN, AXIS_MAX in *. lia. }
  unfold agrees_with_spec in H.
  destruct (normalize_steering steering_trim raw_value) as [v|e];
    [|discriminate].
  apply Z.eqb_eq in H. now subst.
Qed.

(* ================================================================== *)
(** * Equations of the loop body *)

Lemma is_centered_on_stick_iff (raw_value : Z) :
  is_centered_on_stick raw_value = true
  <-> Z.abs (raw_value - AXIS_MID) <= STEERING_DEADZONE.
Proof.
  unfold is_centered_on_stick, AXIS_MID, STEERING_DEADZONE.
  rewrite andb_true_iff, !Z.leb_le. lia.
Qed.

Lemma is_centered_on_stick_false_iff (raw_value : Z) :
  is_centered_on_stick raw_value = false
  <-> STEERING_DEADZONE < Z.abs (raw_value - AXIS_MID).
Proof.
  rewrite <- not_true_iff_false, is_centered_on_stick_iff. lia.
Qed.

Lemma clamp_trim_ok (steering_trim : Z) : trim_ok (clamp_trim steering_trim).
Proof. unfold trim_ok, clamp_trim, MAX_TRIM. lia. Qed.

Lemma clamp_trim_id (steering_trim : Z) :
  trim_ok steering_trim -> clamp_trim steering_trim = steering_trim.
Proof. unfold trim_ok, clamp_trim, MAX_TRIM. lia. Qed.

Lemma trim_branch_eq (e : event) (s : Z) :
  trim_branch e s
  = Outcome (trim_announcement (adjusted_trim s (ev_value e))) (Ok tt)
            (adjusted_trim s (ev_value e)).
Proof.
  unfold trim_branch, adjusted_trim, trim_announcement, clamp_trim.
  unfold bind, get_trim, set_trim, emit, run_to_abs_pos, pass, ret.
  cbn [returned emitted trim_after].
  destruct (ev_value e =? -1); [reflexivity|].
  destruct (ev_value e =? 1); reflexivity.
Qed.

Lemma steering_branch_eq (position : Z) (e : event) (s : Z) :
  steering_branch position e s
  = match normalize_steering s (ev_value e) with
    | Ok target_angle =>
        Outcome (steering_command position target_angle (ev_value e))
                (Ok tt) s
    | Raise err => Outcome [] (Raise err) s
    end.
Proof.
  unfold steering_branch, steering_command.
  unfold bind, get_trim, lift, emit, run_to_abs_pos, pass, ret.
  cbn [returned emitted trim_after].
  destruct (normalize_steering s (ev_value e)) as [target|err];
    cbn [returned emitted trim_after app]; [|reflexivity].
  destruct (is_centered_on_stick (ev_value e)); [|reflexivity].
  destruct (1 <? Z.abs (position - target)); reflexivity.
Qed.

Lemma key_branch_pure (e : event) (s : Z) :
  returned (key_branch e s) = Ok tt /\ trim_after (key_branch e s) = s.
Proof.
  unfold key_branch.
  repeat match goal with
         | |- context [if ?b then _ else _] => destruct b
         end; split; reflexivity.
Qed.

Lemma handle_steering_event (position raw_value s : Z) :
  handle_event position (steering_event raw_value) s
  = steering_branch position (steering_event raw_value) s.
Proof. reflexivity. Qed.

Lemma handle_trim_event (position value s : Z) :
  value <> 0 ->
  handle_event position (trim_event value) s
  = trim_branch (trim_event value) s.
Proof.
  intros Hv. unfold handle_event, trim_event.
  cbn [ev_type ev_code ev_value].
  apply Z.eqb_neq in Hv. rewrite Hv. reflexivity.
Qed.

Lemma handle_key_event (position code value s : Z) :
  handle_event position (key_event code value) s
  = key_branch (key_event code value) s.
Proof. reflexivity. Qed.

(* ================================================================== *)
(** * The trim stays in range *)

Section Preservation.

Variable P : Z -> Prop.

Lemma preserves_ret {A : Type} (a : A) : preserves P (ret a).
Proof. intros s Hs. exact Hs. Qed.

Lemma preserves_emit (e : effect) : preserves P (emit e).
Proof. intros s Hs. exact Hs. Qed.

Lemma preserves_raise {A : Type} (e : exn) : preserves P (@raise A e).
Proof. intros s Hs. exact Hs. Qed.

Lemma preserves_bind {A B : Type} (m : M A) (f : A -> M B) :
  preserves P m -> (forall a, preserves P (f a)) -> preserves P (bind m f).
Proof.
  intros Hm Hf s Hs. unfold bind.
  specialize (Hm s Hs).
  destruct (returned (m s)) as [a|e]; cbn [trim_after].
  - now apply Hf.
  - exact Hm.
Qed.

Lemma preserves_try_except {A : Type} (body : M A) (handler : exn -> M A) :
  preserves P body -> (forall e, preserves P (handler e)) ->
  preserves P (try_except body handler).
Proof.
  intros Hb Hh s Hs. unfold try_except.
  specialize (Hb s Hs).
  destruct (returned (body s)) as [a|e]; cbn [trim_after].
  - exact Hb.
  - now apply Hh.
Qed.

Lemma preserves_try_finally {A : Type} (body : M A) (cleanup : M unit) :
  preserves P body -> preserves P cleanup ->
  preserves P (try_finally body cleanup).
Proof.
  intros Hb Hc s Hs. unfold try_finally. cbn [trim_after].
  apply Hc, Hb, Hs.
Qed.

Lemma preserves_interrupted_after (calls_done : nat) (iteration : M unit) :
  preserves P iteration ->
  preserves P (interrupted_after calls_done iteration).
Proof.
  intros Hi s Hs. unfold interrupted_after. cbn [trim_after].
  destruct calls_done; [exact Hs | now apply Hi].
Qed.

Lemma preserves_shutdown : preserves P shutdown.
Proof. intros s Hs. exact Hs. Qed.

Lemma preserves_setup (o : open_result) : preserves P (setup o).
Proof. intros s Hs. destruct o; exact Hs. Qed.

(** The loop and the script preserve what every iteration preserves,
    unless an interrupt leaves a mutation of the trim unclamped. *)
Hypothesis preserves_iteration :
  forall position e, preserves P (handle_event position e).

Lemma preserves_read_loop (events : list (Z * event)) (stop : loop_end) :
  clamp_pending stop = false ->
  preserves P (read_loop events stop).
Proof.
  intros Hstop.
  induction events as [|[position e] rest IH]; cbn [read_loop].
  - destruct stop.
    + apply preserves_ret.
    + apply preserves_raise.
    + apply preserves_interrupted_after, preserves_iteration.
    + discriminate Hstop.
    + apply preserves_raise.
  - apply preserves_bind; [apply preserves_iteration | intros _; exact IH].
Qed.

Lemma preserves_guarded_loop (events : list (Z * event)) (stop : loop_end) :
  clamp_pending stop = false ->
  preserves P (guarded_loop events stop).
Proof.
  intros Hstop.
  apply preserves_try_finally; [|apply preserves_shutdown].
  apply preserves_try_except; [now apply preserves_read_loop|].
  intros []; try apply preserves_raise.
  apply preserves_bind;
    [apply preserves_emit | intros _; apply preserves_shutdown].
Qed.

Lemma preserves_script (o : open_result) (events : list (Z * event))
  (stop : loop_end) :
  clamp_pending stop = false ->
  preserves P (script o events stop).
Proof.
  intros Hstop.
  apply preserves_bind; [apply preserves_setup | intros _].
  apply preserves_bind; [apply preserves_emit | intros _].
  now apply preserves_guarded_loop.
Qed.

End Preservation.

Lemma keeps_handle_event (position : Z) (e : event) :
  keeps_trim (handle_event position e).
Proof.
  intros s Hs. unfold handle_event.
  destruct ((ev_type e =? EV_ABS) && (ev_code e =? STEERING_AXIS_CODE)).
  - rewrite steering_branch_eq.
    destruct (normalize_steering s (ev_value e)); exact Hs.
  - destruct ((ev_type e =? EV_ABS) && (ev_code e =? TRIM_AXIS_CODE)
              && negb (ev_value e =? 0)).
    + rewrite trim_branch_eq. apply clamp_trim_ok.
    + destruct (ev_type e =? EV_KEY).
      * now rewrite (proj2 (key_branch_pure e s)).
      * exact Hs.
Qed.

Lemma keeps_read_loop (events : list (Z * event)) (stop : loop_end) :
  clamp_pending stop = false ->
  keeps_trim (read_loop events stop).
Proof.
  intros Hstop. apply preserves_read_loop;
    [apply keeps_handle_event | exact Hstop].
Qed.

Lemma keeps_script (o : open_result) (events : list (Z * event))
  (stop : loop_end) :
  clamp_pending stop = false ->
  keeps_trim (script o events stop).
Proof.
  intros Hstop. apply preserves_script;
    [apply keeps_handle_event | exact Hstop].
Qed.

(* ================================================================== *)
(** * Steering normalizer *)

(** C1.  For every raw axis value in [118,138] (the midpoint 128 plus or
    minus the deadzone 10) the normalizer returns exactly the current trim:
    a centered stick steers to the trim-adjusted center, not to zero.  This
    holds for every trim, in particular for every trim in [-45,45]. *)
Theorem normalize_steering_deadzone (steering_trim raw_value : Z) :
  118 <= raw_value <= 138 ->
  normalize_steering steering_trim raw_value = Ok steering_trim.
Proof.
  intros Hraw. unfold normalize_steering.
  replace (is_centered_on_stick raw_value) with true; [reflexivity|].
  symmetry. apply is_centered_on_stick_iff.
  unfold AXIS_MID, STEERING_DEADZONE. lia.
Qed.

Lemma normalize_steering_deadzone_centre :
  118 <= 128 <= 138 /\ trim_ok 10 /\ normalize_steering 10 128 = Ok 10.
Proof.
  split; [lia|]. split; [unfold trim_ok, MAX_TRIM; lia|].
  apply (normalize_steering_deadzone 10 128). lia.
Defined.

(** The exact formula is monotone in the raw value outside the deadzone,
    for every trim and every pair of integers. *)
Lemma normalize_steering_spec_monotone (steering_trim raw1 raw2 : Z) :
  is_centered_on_stick raw1 = false ->
  is_centered_on_stick raw2 = false ->
  raw1 <= raw2 ->
  normalize_steering_spec steering_trim raw1
  <= normalize_steering_spec steering_trim raw2.
Proof.
  intros H1 H2 Hle. unfold normalize_steering_spec. rewrite H1, H2.
  apply Z.quot_le_mono.
  - unfold AXIS_MAX, AXIS_MID. lia.
  - unfold STEERING_MAX_ANGLE. lia.
Qed.

(** C4.  For a fixed trim the normalizer is monotonic non-decreasing in the
    raw value over the axis values outside the deadzone; at zero trim it
    maps 255 to 90 and 0 to -90; the deadzone boundary values 118 and 138
    map to 0 (the first values outside, 117 and 139, to -7 and 7); and its
    result is the signed offset from the midpoint scaled linearly, plus the
    trim, truncated toward zero. *)
Theorem normalize_steering_monotone :
  (forall steering_trim raw1 raw2,
     trim_ok steering_trim -> axis_value raw1 -> axis_value raw2 ->
     is_centered_on_stick raw1 = false ->
     is_centered_on_stick raw2 = false ->
     raw1 <= raw2 ->
     exists angle1 angle2,
       normalize_steering steering_trim raw1 = Ok angle1 /\
       normalize_steering steering_trim raw2 = Ok angle2 /\
       angle1 <= angle2)
  /\ normalize_steering 0 255 = Ok 90
  /\ normalize_steering 0 0 = Ok (-90)
  /\ normalize_steering 0 118 = Ok 0
  /\ normalize_steering 0 138 = Ok 0
  /\ normalize_steering 0 117 = Ok (-7)
  /\ normalize_steering 0 139 = Ok 7
  /\ (forall steering_trim raw_value,
        trim_ok steering_trim -> axis_value raw_value ->
        is_centered_on_stick raw_value = false ->
        normalize_steering steering_trim raw_value
        = Ok (Z.quot (90 * (raw_value - 128) + 127 * steering_trim) 127)).
Proof.
  split.
  { intros t r1 r2 Ht Hr1 Hr2 Hc1 Hc2 Hle.
    exists (normalize_steering_spec t r1), (normalize_steering_spec t r2).
    split; [now apply normalize_steering_exact|].
    split; [now apply normalize_steering_exact|].
    now apply normalize_steering_spec_monotone. }
  repeat (split; [vm_compute; reflexivity|]).
  intros t r Ht Hr Hc.
  rewrite (normalize_steering_exact t r Ht Hr).
  unfold normalize_steering_spec. rewrite Hc. reflexivity.
Qed.

Lemma normalize_steering_monotone_example :
  trim_ok 10 /\ axis_value 100 /\ axis_value 200 /\ 100 <= 200 /\
  exists angle1 angle2,
    normalize_steering 10 100 = Ok angle1 /\
    normalize_steering 10 200 = Ok angle2 /\
    angle1 <= angle2.
Proof.
  assert (Ht : trim_ok 10) by (unfold trim_ok, MAX_TRIM; lia).
  assert (H1 : axis_value 100)
    by (unfold axis_value, AXIS_MIN, AXIS_MAX; lia).
  assert (H2 : axis_value 200)
    by (unfold axis_value, AXIS_MIN, AXIS_MAX; lia).
  repeat (split; [assumption || lia|]).
  apply (proj1 normalize_steering_monotone 10 100 200 Ht H1 H2);
    [reflexivity | reflexivity | lia].
Defined.

(* ================================================================== *)
(** * Steering events *)

(** C2.  For a steering-axis event: when the raw value is within the
    deadzone of the midpoint ([|raw - 128| <= 10], a test on the raw value
    alone, whatever the trim), the target angle is the trim and an
    absolute-position command is issued if and only if the motor's position
    differs from the target by more than 1 degree; outside the deadzone the
    command to the target angle is always issued.  With raw 128, trim 10 and
    position 10 no command is issued; with position 5 exactly one command,
    with target 10, is issued. *)
Theorem steering_event_dispatch :
  (forall steering_trim position raw_value,
     Z.abs (raw_value - 128) <= 10 ->
     normalize_steering steering_trim raw_value = Ok steering_trim /\
     (1 < Z.abs (position - steering_trim) ->
      handle_event position (steering_event raw_value) steering_trim
      = Outcome [RunToAbsPos steering_trim 720 coast] (Ok tt)
                steering_trim) /\
     (Z.abs (position - steering_trim) <= 1 ->
      handle_event position (steering_event raw_value) steering_trim
      = Outcome [] (Ok tt) steering_trim))
  /\ (forall steering_trim position raw_value,
        trim_ok steering_trim -> axis_value raw_value ->
        10 < Z.abs (raw_value - 128) ->
        exists target_angle,
          normalize_steering steering_trim raw_value = Ok target_angle /\
          handle_event position (steering_event raw_value) steering_trim
          = Outcome [RunToAbsPos target_angle 720 coast] (Ok tt)
                    steering_trim)
  /\ (forall steering_trim position raw_value target_angle,
        10 < Z.abs (raw_value - 128) ->
        normalize_steering steering_trim raw_value = Ok target_angle ->
        handle_event position (steering_event raw_value) steering_trim
        = Outcome [RunToAbsPos target_angle 720 coast] (Ok tt)
                  steering_trim)
  /\ handle_event 10 (steering_event 128) 10 = Outcome [] (Ok tt) 10
  /\ handle_event 5 (steering_event 128) 10
     = Outcome [RunToAbsPos 10 720 coast] (Ok tt) 10.
Proof.
  assert (Hout : forall t position raw target,
             10 < Z.abs (raw - 128) ->
             normalize_steering t raw = Ok target ->
             handle_event position (steering_event raw) t
             = Outcome [RunToAbsPos target 720 coast] (Ok tt) t).
  { intros t position raw target Hfar Hn.
    rewrite handle_steering_event, steering_branch_eq.
    cbn [steering_event ev_value]. rewrite Hn. unfold steering_command.
    apply is_centered_on_stick_false_iff in Hfar. rewrite Hfar.
    reflexivity. }
  split; [|split; [|split; [exact Hout | split; vm_compute; reflexivity]]].
  - intros t position raw Hc.
    apply is_centered_on_stick_iff in Hc.
    assert (Hn : normalize_steering t raw = Ok t)
      by (unfold normalize_steering; rewrite Hc; reflexivity).
    split; [exact Hn|].
    rewrite handle_steering_event, steering_branch_eq.
    cbn [steering_event ev_value]. rewrite Hn. unfold steering_command.
    rewrite Hc. split.
    + intros Hfar. apply Z.ltb_lt in Hfar. rewrite Hfar. reflexivity.
    + intros Hnear. apply Z.ltb_ge in Hnear. rewrite Hnear. reflexivity.
  - intros t position raw Ht Hraw Hfar.
    exists (normalize_steering_spec t raw).
    pose proof (normalize_steering_exact t raw Ht Hraw) as Hn.
    split; [exact Hn | now apply Hout].
Qed.

Lemma steering_event_dispatch_example :
  trim_ok 10 /\ axis_value 200 /\ 10 < Z.abs (200 - 128) /\
  exists target_angle,
    normalize_steering 10 200 = Ok target_angle /\
    handle_event 0 (steering_event 200) 10
    = Outcome [RunToAbsPos target_angle 720 coast] (Ok tt) 10.
Proof.
  assert (Ht : trim_ok 10) by (unfold trim_ok, MAX_TRIM; lia).
  assert (Hr : axis_value 200)
    by (unfold axis_value, AXIS_MIN, AXIS_MAX; lia).
  assert (Hfar : 10 < Z.abs (200 - 128)) by lia.
  repeat (split; [assumption|]).
  exact (proj1 (proj2 steering_event_dispatch) 10 0 200 Ht Hr Hfar).
Defined.

(* ================================================================== *)
(** * Trim events *)

(** C3.  The trim starts at 0 and is in [-45,45] after every trim-adjust
    event and after every other event of every run: each iteration of the
    loop, carried to its end, leaves the trim in range when it found it in
    range, so the trim is in range after any sequence of events and at the
    end of every run that does not stop between a mutation and its clamp;
    a trim-adjust event leaves it in range whatever it was (the clamp of
    line 104 follows the mutation of lines 99-102).  At the bounds the
    adjustment is idempotent: applying +1 any number of times from 45
    keeps 45, and applying -1 any number of times from -45 keeps -45. *)
Theorem trim_always_in_range :
  steering_trim_initial = 0
  /\ (forall events,
        trim_ok (trim_after
                   (read_loop events Exhausted steering_trim_initial)))
  /\ (forall o events stop,
        clamp_pending stop = false ->
        trim_ok (trim_after (main o events stop)))
  /\ (forall events stop s,
        clamp_pending stop = false ->
        trim_ok s -> trim_ok (trim_after (read_loop events stop s)))
  /\ (forall position e s,
        trim_ok s -> trim_ok (trim_after (handle_event position e s)))
  /\ (forall position value s,
        value <> 0 ->
        -45 <= trim_after (handle_event position (trim_event value) s) <= 45)
  /\ (forall position n,
        Nat.iter n (fun s => trim_after
                               (handle_event position (trim_event 1) s)) 45
        = 45)
  /\ (forall position n,
        Nat.iter n (fun s => trim_after
                               (handle_event position (trim_event (-1)) s))
                 (-45)
        = -45).
Proof.
  assert (H0 : trim_ok steering_trim_initial)
    by (unfold trim_ok, steering_trim_initial, MAX_TRIM; lia).
  split; [reflexivity|].
  split.
  { intros events.
    apply (keeps_read_loop events Exhausted eq_refl steering_trim_initial H0). }
  split.
  { intros o events stop Hstop. unfold main.
    apply (keeps_script o events stop Hstop steering_trim_initial H0). }
  split.
  { intros events stop s Hstop. apply (keeps_read_loop events stop Hstop s). }
  split.
  { intros position e s. apply (keeps_handle_event position e s). }
  split.
  { intros position value s Hv.
    rewrite (handle_trim_event position value s Hv), trim_branch_eq.
    cbn [trim_after]. apply clamp_trim_ok. }
  split; intros position n; induction n as [|n IH];
    [reflexivity | | reflexivity | ];
    rewrite Nat.iter_succ, IH; reflexivity.
Qed.

(** The instances of C3 where the mutation leaves the range and the clamp
    brings the trim back: a right press at 45 (the mutation gives 46), a
    left press at -45 (the mutation gives -46), and a whole run of 46 right
    presses from the initial 0. *)
Lemma trim_always_in_range_example :
  1 <> 0 /\ -1 <> 0
  /\ unclamped_trim (trim_event 1) 45 = 46
  /\ -45 <= trim_after (handle_event 0 (trim_event 1) 45) <= 45
  /\ unclamped_trim (trim_event (-1)) (-45) = -46
  /\ -45 <= trim_after (handle_event 0 (trim_event (-1)) (-45)) <= 45
  /\ clamp_pending Exhausted = false
  /\ trim_ok (trim_after (main (Opened "pad")
                               (List.repeat (0, trim_event 1) 46)
                               Exhausted)).
Proof.
  split; [lia|]. split; [lia|].
  split; [reflexivity|].
  split.
  { apply (proj1 (proj2 (proj2 (proj2 (proj2 (proj2 trim_always_in_range)))))
             0 1 45). lia. }
  split; [reflexivity|].
  split.
  { apply (proj1 (proj2 (proj2 (proj2 (proj2 (proj2 trim_always_in_range)))))
             0 (-1) (-45)). lia. }
  split; [reflexivity|].
  apply (proj1 (proj2 (proj2 trim_always_in_range))
           (Opened "pad") (List.repeat (0, trim_event 1) 46) Exhausted).
  reflexivity.
Defined.

(** C5, as the code has it.  A D-pad event with value +1 while the trim is
    45 leaves the trim at 45 (clamped) and still prints the update,
    announces it and issues an absolute-position steering command to 45.
    An event with value -1 at trim 45 lowers the trim to 44, and the
    announcement and the steering command carry 44. *)
Theorem trim_event_at_upper_bound (position : Z) :
  handle_event position (trim_event 1) 45
  = Outcome [Print "Steering Trim updated: 45 degrees";
             Speak "Trim 45 degrees";
             RunToAbsPos 45 720 coast] (Ok tt) 45
  /\ handle_event position (trim_event (-1)) 45
     = Outcome [Print "Steering Trim updated: 44 degrees";
                Speak "Trim 44 degrees";
                RunToAbsPos 44 720 coast] (Ok tt) 44.
Proof. split; reflexivity. Qed.

(** C5, as stated, fails: the event with value -1 at trim 45 does not leave
    the trim at 45, and the steering command goes to 44, not to 45. *)
Lemma trim_left_at_upper_bound_gives_44 :
  trim_after (handle_event 0 (trim_event (-1)) 45) = 44
  /\ trim_after (handle_event 0 (trim_event (-1)) 45) <> 45
  /\ emitted (handle_event 0 (trim_event (-1)) 45)
     = [Print "Steering Trim updated: 44 degrees";
        Speak "Trim 44 degrees";
        RunToAbsPos 44 720 coast]
  /\ ~ In (RunToAbsPos 45 720 coast)
          (emitted (handle_event 0 (trim_event (-1)) 45)).
Proof.
  split; [reflexivity|]. split; [discriminate|]. split; [reflexivity|].
  cbn. intros [H|[H|[H|[]]]]; discriminate.
Qed.

(** C9.  A trim-axis event carrying value 0 (the D-pad returning to rest)
    does nothing: the trim is not changed, nothing is printed or spoken and
    no steering command is issued. *)
Theorem trim_rest_event_ignored (position s : Z) :
  handle_event position (Event EV_ABS TRIM_AXIS_CODE 0) s
  = Outcome [] (Ok tt) s.
Proof. reflexivity. Qed.

(** C10.  A trim-axis event whose value is neither 0, -1 nor +1 leaves the
    trim unchanged, and all three side effects still happen: the update is
    printed, the (unchanged) trim is announced, and an absolute-position
    steering command to the current trim is issued. *)
Theorem trim_event_other_value (position value s : Z) :
  trim_ok s -> value <> 0 -> value <> -1 -> value <> 1 ->
  handle_event position (trim_event value) s
  = Outcome [Print ("Steering Trim updated: " ++ Py.str s ++ " degrees");
             Speak ("Trim " ++ Py.str s ++ " degrees");
             RunToAbsPos s 720 coast] (Ok tt) s.
Proof.
  intros Hs H0 Hm1 H1.
  rewrite (handle_trim_event position value s H0), trim_branch_eq.
  cbn [trim_event ev_value]. unfold adjusted_trim.
  apply Z.eqb_neq in Hm1, H1. rewrite Hm1, H1.
  rewrite (clamp_trim_id s Hs). reflexivity.
Qed.

Lemma trim_event_other_value_example :
  trim_ok 7 /\
  handle_event 0 (trim_event 2) 7
  = Outcome [Print "Steering Trim updated: 7 degrees";
             Speak "Trim 7 degrees";
             RunToAbsPos 7 720 coast] (Ok tt) 7.
Proof.
  assert (Hs : trim_ok 7) by (unfold trim_ok, MAX_TRIM; lia).
  split; [exact Hs|].
  apply (trim_event_other_value 0 2 7 Hs); lia.
Defined.

(* ================================================================== *)
(** * Drive keys *)

(** C8.  The drive keys, in event arrival order: forward pressed commands
    both drive outputs to +100, +100 and forward released then stops them
    without braking; reverse pressed commands -100, -100 and its release
    stops without braking; brake pressed stops with active braking and
    brake released stops without braking. *)
Theorem drive_keys (position s : Z) :
  handle_event position (key_event ACCEL_CODE 1) s
  = Outcome [TankOn 100 100] (Ok tt) s
  /\ handle_event position (key_event ACCEL_CODE 0) s
     = Outcome [TankOff false] (Ok tt) s
  /\ handle_event position (key_event REVERSE_CODE 1) s
     = Outcome [TankOn (-100) (-100)] (Ok tt) s
  /\ handle_event position (key_event REVERSE_CODE 0) s
     = Outcome [TankOff false] (Ok tt) s
  /\ handle_event position (key_event BRAKE_CODE 1) s
     = Outcome [TankOff true] (Ok tt) s
  /\ handle_event position (key_event BRAKE_CODE 0) s
     = Outcome [TankOff false] (Ok tt) s
  /\ (forall position',
        read_loop [(position, key_event ACCEL_CODE 1);
                   (position', key_event ACCEL_CODE 0)] Exhausted s
        = Outcome [TankOn 100 100; TankOff false] (Ok tt) s)
  /\ (forall position',
        read_loop [(position, key_event REVERSE_CODE 1);
                   (position', key_event REVERSE_CODE 0)] Exhausted s
        = Outcome [TankOn (-100) (-100); TankOff false] (Ok tt) s)
  /\ (forall position',
        read_loop [(position, key_event BRAKE_CODE 1);
                   (position', key_event BRAKE_CODE 0)] Exhausted s
        = Outcome [TankOff true; TankOff false] (Ok tt) s).
Proof. repeat split; reflexivity. Qed.

(* ================================================================== *)
(** * Setup and shutdown *)

Lemma shutdown_emits (s : Z) :
  shutdown s = Outcome shutdown_sequence (Ok tt) s.
Proof. reflexivity. Qed.

Lemma guarded_loop_ends_with_shutdown (events : list (Z * event))
  (stop : loop_end) (s : Z) :
  ends_with_shutdown (emitted (guarded_loop events stop s)).
Proof.
  unfold guarded_loop, try_finally. cbn [emitted].
  rewrite shutdown_emits. cbn [emitted].
  eexists. reflexivity.
Qed.

Lemma setup_opened (name : string) (s : Z) :
  setup (Opened name) s
  = Outcome [SetStopAction coast; SteeringReset; Print attempting_message;
             Print ("Successfully connected to: " ++ name)] (Ok tt) s.
Proof. reflexivity. Qed.

Lemma script_opened (name : string) (events : list (Z * event))
  (stop : loop_end) (s : Z) :
  emitted (script (Opened name) events stop s)
  = ([SetStopAction coast; SteeringReset; Print attempting_message;
      Print ("Successfully connected to: " ++ name); Print ready_message]
     ++ emitted (guarded_loop events stop s))%list.
Proof.
  unfold script. unfold bind at 1. rewrite setup_opened.
  cbn [returned emitted trim_after]. unfold bind at 1.
  reflexivity.
Qed.

(** The whole run when the controller cannot be opened. *)
Lemma main_not_found (events : list (Z * event)) (stop : loop_end) :
  main NotFound events stop
  = Outcome [SetStopAction coast; SteeringReset; Print attempting_message;
             Print not_found_message] (Raise (SystemExit 1)) 0.
Proof. reflexivity. Qed.

Lemma main_denied (events : list (Z * event)) (stop : loop_end) :
  main Denied events stop
  = Outcome [SetStopAction coast; SteeringReset; Print attempting_message;
             Print permission_message] (Raise (SystemExit 1)) 0.
Proof. reflexivity. Qed.

(** C6, as the code has it.  Once the controller is open, every way out of
    the loop (the loop ending, an operator interrupt while waiting or in the
    middle of an iteration, an exception of the read or of an iteration)
    ends the run with the shutdown sequence: drive outputs stopped without
    braking, steering stop behaviour set to braking, steering motor off.  On
    a fatal setup error the program exits with status 1 before the guarded
    loop, without any call of the shutdown sequence, and without having
    issued any drive or steering motion command. *)
Theorem shutdown_on_loop_exit :
  (forall name events stop,
     ends_with_shutdown (emitted (main (Opened name) events stop)))
  /\ (forall o events stop,
        o = NotFound \/ o = Denied ->
        existsb shutdown_call (emitted (main o events stop)) = false
        /\ existsb motion_call (emitted (main o events stop)) = false
        /\ exit_status (main o events stop) = 1).
Proof.
  split.
  - intros name events stop. unfold main. rewrite script_opened.
    destruct (guarded_loop_ends_with_shutdown events stop
                steering_trim_initial) as [before Hb].
    rewrite Hb. eexists. apply app_assoc.
  - intros o events stop [-> | ->].
    + rewrite main_not_found. repeat split; reflexivity.
    + rewrite main_denied. repeat split; reflexivity.
Qed.

Lemma shutdown_on_loop_exit_example :
  existsb shutdown_call (emitted (main Denied [] InterruptedWaiting)) = false
  /\ existsb motion_call (emitted (main Denied [] InterruptedWaiting)) = false
  /\ exit_status (main Denied [] InterruptedWaiting) = 1.
Proof.
  apply (proj2 shutdown_on_loop_exit Denied [] InterruptedWaiting).
  right. reflexivity.
Defined.

(** C6, as stated, fails on the fatal setup error: the run with a missing
    controller makes none of the three shutdown calls, so its trace does not
    end with the shutdown sequence. *)
Lemma setup_failure_skips_shutdown :
  emitted (main NotFound [] Exhausted)
  = [SetStopAction coast; SteeringReset; Print attempting_message;
     Print not_found_message]
  /\ existsb shutdown_call (emitted (main NotFound [] Exhausted)) = false
  /\ ~ ends_with_shutdown (emitted (main NotFound [] Exhausted)).
Proof.
  split; [reflexivity|]. split; [reflexivity|].
  intros [before Hb]. rewrite main_not_found in Hb. cbn [emitted] in Hb.
  assert (Hlast : last (before ++ shutdown_sequence)%list StopSound
                  = SteeringOff).
  { unfold shutdown_sequence.
    change [TankOff false; SetStopAction brake; SteeringOff]
      with ([TankOff false; SetStopAction brake] ++ [SteeringOff])%list.
    rewrite app_assoc. apply last_last. }
  rewrite <- Hb in Hlast. discriminate Hlast.
Qed.

(** C7, as the code has it.  On either setup failure the program prints a
    diagnostic and exits with status 1 before the loop: nothing but the
    motor set-up, the opening message and the diagnostic happens, whatever
    events are waiting.  The diagnostic names the failure kind in both
    cases.  It names the configured path when the controller is not found;
    when permission is denied it does not: the path then appears only in the
    opening message printed before the attempt. *)
Theorem setup_failure_diagnostic (events : list (Z * event))
  (stop : loop_end) :
  (main NotFound events stop
   = Outcome [SetStopAction coast; SteeringReset; Print attempting_message;
              Print not_found_message] (Raise (SystemExit 1)) 0
   /\ exit_status (main NotFound events stop) = 1
   /\ Py.contains "not found" not_found_message = true
   /\ Py.contains CONTROLLER_PATH not_found_message = true)
  /\ (main Denied events stop
      = Outcome [SetStopAction coast; SteeringReset;
                 Print attempting_message;
                 Print permission_message] (Raise (SystemExit 1)) 0
      /\ exit_status (main Denied events stop) = 1
      /\ Py.contains "Permission denied" permission_message = true
      /\ Py.contains CONTROLLER_PATH permission_message = false
      /\ Py.contains CONTROLLER_PATH attempting_message = true).
Proof. repeat split; reflexivity. Qed.

(** C7, as stated, fails when permission is denied: the diagnostic printed
    then does not contain the configured device path. *)
Lemma permission_diagnostic_omits_path :
  emitted (main Denied [] Exhausted)
  = [SetStopAction coast; SteeringReset;
     Print "Attempting to open controller at /dev/input/event2...";
     Print "Error: Permission denied. You must run the script with 'sudo'."]
  /\ CONTROLLER_PATH = "/dev/input/event2"
  /\ Py.contains CONTROLLER_PATH
       "Error: Permission denied. You must run the script with 'sudo'."
     = false.
Proof. repeat split; reflexivity. Qed.

(* ================================================================== *)
(** * Sound keys, key repeats and foreign events *)

(** X1.  The sound keys act on a press only: A plays Horn.wav and B plays
    Horn2.wav (both with play_type 1), X stops the sound; an event of one
    of these keys with any other value (a release, a repeat) does nothing.
    None of them touches the trim. *)
Theorem sound_keys (position s : Z) :
  handle_event position (key_event HORN_CODE 1) s
  = Outcome [PlayFile "/home/robot/VSCODE/Horn.wav" 1] (Ok tt) s
  /\ handle_event position (key_event HORN2_CODE 1) s
     = Outcome [PlayFile "/home/robot/VSCODE/Horn2.wav" 1] (Ok tt) s
  /\ handle_event position (key_event STOP_SOUND_CODE 1) s
     = Outcome [StopSound] (Ok tt) s
  /\ (forall code value,
        code = HORN_CODE \/ code = HORN2_CODE \/ code = STOP_SOUND_CODE ->
        value <> 1 ->
        handle_event position (key_event code value) s
        = Outcome [] (Ok tt) s).
Proof.
  repeat (split; [reflexivity|]).
  intros code value Hcode Hv. apply Z.eqb_neq in Hv.
  rewrite handle_key_event. unfold key_branch.
  cbn [key_event ev_code ev_value]. rewrite Hv.
  destruct Hcode as [-> | [-> | ->]]; reflexivity.
Qed.

Lemma sound_keys_example :
  0 <> 1 /\ handle_event 0 (key_event HORN_CODE 0) 3 = Outcome [] (Ok tt) 3.
Proof.
  split; [lia|].
  apply (proj2 (proj2 (proj2 (sound_keys 0 3))) HORN_CODE 0); [|lia].
  left. reflexivity.
Defined.

(** X2.  A key event whose value is neither 0 nor 1 (the auto-repeat value
    2 of a held key, for instance) does nothing, whatever its code: no
    drive command is re-issued and no sound is played. *)
Theorem key_repeat_ignored (position code value s : Z) :
  value <> 0 -> value <> 1 ->
  handle_event position (key_event code value) s = Outcome [] (Ok tt) s.
Proof.
  intros H0 H1. apply Z.eqb_neq in H0, H1.
  rewrite handle_key_event. unfold key_branch.
  cbn [key_event ev_code ev_value]. rewrite H0, H1.
  repeat match goal with
         | |- context [if ?b then _ else _] => destruct b
         end; reflexivity.
Qed.

Lemma key_repeat_ignored_example :
  2 <> 0 /\ 2 <> 1 /\
  handle_event 0 (key_event ACCEL_CODE 2) 0 = Outcome [] (Ok tt) 0.
Proof.
  split; [lia|]. split; [lia|].
  apply (key_repeat_ignored 0 ACCEL_CODE 2 0); lia.
Defined.

(** X3.  An event the loop has no branch for (a type other than EV_ABS and
    EV_KEY, an absolute axis other than the stick X axis and the D-pad X
    axis, a key other than the six bound ones) is ignored: no call is made,
    no exception is raised and the trim is unchanged. *)
Theorem unrecognized_event_ignored (position : Z) (e : event) (s : Z) :
  recognized e = false ->
  handle_event position e s = Outcome [] (Ok tt) s.
Proof.
  unfold recognized, bound_key, handle_event, key_branch.
  destruct (ev_type e =? EV_ABS) eqn:Habs;
    destruct (ev_type e =? EV_KEY) eqn:Hkey;
    destruct (ev_code e =? STEERING_AXIS_CODE);
    destruct (ev_code e =? TRIM_AXIS_CODE);
    destruct (ev_code e =? ACCEL_CODE);
    destruct (ev_code e =? REVERSE_CODE);
    destruct (ev_code e =? BRAKE_CODE);
    destruct (ev_code e =? HORN_CODE);
    destruct (ev_code e =? HORN2_CODE);
    destruct (ev_code e =? STOP_SOUND_CODE);
    cbn [andb orb negb]; intros H; try discriminate H; reflexivity.
Qed.

Lemma unrecognized_event_ignored_example :
  recognized (Event 3 1 200) = false /\
  handle_event 0 (Event 3 1 200) 5 = Outcome [] (Ok tt) 5.
Proof.
  split; [reflexivity|].
  apply (unrecognized_event_ignored 0 (Event 3 1 200) 5). reflexivity.
Defined.

(* ================================================================== *)
(** * The shape of the steering curve *)

(** The normalizer on the operating range, outside the deadzone. *)
Lemma normalize_steering_outside (steering_trim raw_value : Z) :
  trim_ok steering_trim -> axis_value raw_value ->
  is_centered_on_stick raw_value = false ->
  normalize_steering steering_trim raw_value
  = Ok (Z.quot (90 * (raw_value - 128) + 127 * steering_trim) 127).
Proof.
  intros Ht Hr Hc. rewrite (normalize_steering_exact _ _ Ht Hr).
  unfold normalize_steering_spec. rewrite Hc. reflexivity.
Qed.

Ltac range_facts :=
  unfold trim_ok, axis_value, MAX_TRIM, AXIS_MIN, AXIS_MAX, AXIS_MID,
    STEERING_DEADZONE, STEERING_MAX_ANGLE in *.

Lemma normalize_steering_spec_range (steering_trim raw_value : Z) :
  trim_ok steering_trim -> axis_value raw_value ->
  steering_trim - 90 <= normalize_steering_spec steering_trim raw_value
  <= steering_trim + 90.
Proof.
  intros Ht Hr. unfold normalize_steering_spec.
  destruct (is_centered_on_stick raw_value); range_facts; [lia|].
  Z.to_euclidean_division_equations. lia.
Qed.

Lemma normalize_steering_spec_monotone_axis (steering_trim raw1 raw2 : Z) :
  raw1 <= raw2 ->
  normalize_steering_spec steering_trim raw1
  <= normalize_steering_spec steering_trim raw2.
Proof.
  intros Hle. unfold normalize_steering_spec.
  destruct (is_centered_on_stick raw1) eqn:H1;
    destruct (is_centered_on_stick raw2) eqn:H2.
  - lia.
  - apply is_centered_on_stick_iff in H1.
    apply is_centered_on_stick_false_iff in H2. range_facts.
    Z.to_euclidean_division_equations. lia.
  - apply is_centered_on_stick_false_iff in H1.
    apply is_centered_on_stick_iff in H2. range_facts.
    Z.to_euclidean_division_equations. lia.
  - apply Z.quot_le_mono; range_facts; lia.
Qed.

(** X4.  On the operating range the target angle is within 90 degrees of
    the trim, hence within [-135, 135]: an axis value in [0,255] never
    steers further than the maximum angle beyond the trimmed center. *)
Theorem normalize_steering_range (steering_trim raw_value : Z) :
  trim_ok steering_trim -> axis_value raw_value ->
  exists target_angle,
    normalize_steering steering_trim raw_value = Ok target_angle /\
    steering_trim - 90 <= target_angle <= steering_trim + 90 /\
    -135 <= target_angle <= 135.
Proof.
  intros Ht Hr. exists (normalize_steering_spec steering_trim raw_value).
  split; [now apply normalize_steering_exact|].
  pose proof (normalize_steering_spec_range _ _ Ht Hr) as Hb.
  split; [exact Hb|]. range_facts. lia.
Qed.

Lemma normalize_steering_range_example :
  trim_ok (-45) /\ axis_value 0 /\
  exists target_angle,
    normalize_steering (-45) 0 = Ok target_angle /\
    -45 - 90 <= target_angle <= -45 + 90 /\
    -135 <= target_angle <= 135.
Proof.
  assert (Ht : trim_ok (-45)) by (unfold trim_ok, MAX_TRIM; lia).
  assert (Hr : axis_value 0) by (unfold axis_value, AXIS_MIN, AXIS_MAX; lia).
  split; [exact Ht|]. split; [exact Hr|].
  exact (normalize_steering_range (-45) 0 Ht Hr).
Defined.

(** X5.  For a fixed trim the normalizer is monotonic non-decreasing over
    the whole axis, the deadzone included: the plateau of the deadzone lies
    between the two ramps. *)
Theorem normalize_steering_monotone_axis (steering_trim raw1 raw2 : Z) :
  trim_ok steering_trim -> axis_value raw1 -> axis_value raw2 ->
  raw1 <= raw2 ->
  exists angle1 angle2,
    normalize_steering steering_trim raw1 = Ok angle1 /\
    normalize_steering steering_trim raw2 = Ok angle2 /\
    angle1 <= angle2.
Proof.
  intros Ht H1 H2 Hle.
  exists (normalize_steering_spec steering_trim raw1),
         (normalize_steering_spec steering_trim raw2).
  split; [now apply normalize_steering_exact|].
  split; [now apply normalize_steering_exact|].
  now apply normalize_steering_spec_monotone_axis.
Qed.

Lemma normalize_steering_monotone_axis_example :
  trim_ok 5 /\ axis_value 110 /\ axis_value 128 /\ 110 <= 128 /\
  exists angle1 angle2,
    normalize_steering 5 110 = Ok angle1 /\
    normalize_steering 5 128 = Ok angle2 /\
    angle1 <= angle2.
Proof.
  assert (Ht : trim_ok 5) by (unfold trim_ok, MAX_TRIM; lia).
  assert (H1 : axis_value 110)
    by (unfold axis_value, AXIS_MIN, AXIS_MAX; lia).
  assert (H2 : axis_value 128)
    by (unfold axis_value, AXIS_MIN, AXIS_MAX; lia).
  assert (Hle : 110 <= 128) by lia.
  repeat (split; [assumption|]).
  exact (normalize_steering_monotone_axis 5 110 128 Ht H1 H2 Hle).
Defined.

(** X6.  At zero trim the curve is odd about the midpoint: deflecting the
    stick by the same amount to the left and to the right gives opposite
    angles (truncation is toward zero on both sides). *)
Theorem normalize_steering_odd (deflection : Z) :
  0 <= deflection <= 127 ->
  exists angle,
    normalize_steering 0 (128 + deflection) = Ok angle /\
    normalize_steering 0 (128 - deflection) = Ok (- angle).
Proof.
  intros Hd.
  assert (Ht : trim_ok 0) by (range_facts; lia).
  assert (H1 : axis_value (128 + deflection)) by (range_facts; lia).
  assert (H2 : axis_value (128 - deflection)) by (range_facts; lia).
  exists (normalize_steering_spec 0 (128 + deflection)).
  split; [now apply normalize_steering_exact|].
  rewrite (normalize_steering_exact _ _ Ht H2). f_equal.
  unfold normalize_steering_spec.
  destruct (is_centered_on_stick (128 + deflection)) eqn:Hc.
  - apply is_centered_on_stick_iff in Hc.
    replace (is_centered_on_stick (128 - deflection)) with true;
      [reflexivity|].
    symmetry. apply is_centered_on_stick_iff. range_facts. lia.
  - apply is_centered_on_stick_false_iff in Hc.
    replace (is_centered_on_stick (128 - deflection)) with false.
    + range_facts. rewrite <- Z.quot_opp_l by lia. f_equal. lia.
    + symmetry. apply is_centered_on_stick_false_iff. range_facts. lia.
Qed.

Lemma normalize_steering_odd_example :
  0 <= 100 <= 127 /\
  exists angle,
    normalize_steering 0 (128 + 100) = Ok angle /\
    normalize_steering 0 (128 - 100) = Ok (- angle).
Proof.
  assert (Hd : 0 <= 100 <= 127) by lia.
  split; [exact Hd|]. exact (normalize_steering_odd 100 Hd).
Defined.

(** X7.  Outside the deadzone one step of the axis moves the target by at
    most one degree, and never backwards: between two adjacent axis values
    on the same side of the deadzone the angle grows by 0 or 1. *)
Theorem normalize_steering_unit_step (steering_trim raw_value : Z) :
  trim_ok steering_trim ->
  axis_value raw_value -> axis_value (raw_value + 1) ->
  is_centered_on_stick raw_value = false ->
  is_centered_on_stick (raw_value + 1) = false ->
  exists angle,
    normalize_steering steering_trim raw_value = Ok angle /\
    (normalize_steering steering_trim (raw_value + 1) = Ok angle \/
     normalize_steering steering_trim (raw_value + 1) = Ok (angle + 1)).
Proof.
  intros Ht H1 H2 Hc1 Hc2.
  rewrite (normalize_steering_outside _ _ Ht H1 Hc1).
  rewrite (normalize_steering_outside _ _ Ht H2 Hc2).
  eexists. split; [reflexivity|].
  assert (Hstep :
    let a := Z.quot (90 * (raw_value - 128) + 127 * steering_trim) 127 in
    let b := Z.quot (90 * (raw_value + 1 - 128) + 127 * steering_trim) 127 in
    b = a \/ b = a + 1).
  { cbv zeta. Z.to_euclidean_division_equations. lia. }
  cbv zeta in Hstep. destruct Hstep as [-> | ->]; [left | right]; reflexivity.
Qed.

Lemma normalize_steering_unit_step_example :
  trim_ok 0 /\ axis_value 200 /\ axis_value (200 + 1) /\
  exists angle,
    normalize_steering 0 200 = Ok angle /\
    (normalize_steering 0 (200 + 1) = Ok angle \/
     normalize_steering 0 (200 + 1) = Ok (angle + 1)).
Proof.
  assert (Ht : trim_ok 0) by (unfold trim_ok, MAX_TRIM; lia).
  assert (H1 : axis_value 200)
    by (unfold axis_value, AXIS_MIN, AXIS_MAX; lia).
  assert (H2 : axis_value (200 + 1))
    by (unfold axis_value, AXIS_MIN, AXIS_MAX; lia).
  repeat (split; [assumption|]).
  apply (normalize_steering_unit_step 0 200 Ht H1 H2); reflexivity.
Defined.

(** X8.  Leaving the deadzone is a jump: for every trim in range the first
    axis value above the deadzone (139) steers 7 or 8 degrees above the
    trim and the first one below (117) steers 7 or 8 degrees below it,
    while the deadzone itself steers to the trim. *)
Theorem normalize_steering_deadzone_jump (steering_trim : Z) :
  trim_ok steering_trim ->
  exists above below,
    normalize_steering steering_trim 139 = Ok above /\
    normalize_steering steering_trim 117 = Ok below /\
    normalize_steering steering_trim 138 = Ok steering_trim /\
    normalize_steering steering_trim 118 = Ok steering_trim /\
    (above = steering_trim + 7 \/ above = steering_trim + 8) /\
    (below = steering_trim - 7 \/ below = steering_trim - 8).
Proof.
  intros Ht.
  assert (H139 : axis_value 139) by (range_facts; lia).
  assert (H117 : axis_value 117) by (range_facts; lia).
  rewrite (normalize_steering_outside _ 139 Ht H139 eq_refl).
  rewrite (normalize_steering_outside _ 117 Ht H117 eq_refl).
  do 2 eexists. do 4 (split; [reflexivity|]).
  range_facts. Z.to_euclidean_division_equations. lia.
Qed.

Lemma normalize_steering_deadzone_jump_example :
  trim_ok (-10) /\
  exists above below,
    normalize_steering (-10) 139 = Ok above /\
    normalize_steering (-10) 117 = Ok below /\
    normalize_steering (-10) 138 = Ok (-10) /\
    normalize_steering (-10) 118 = Ok (-10) /\
    (above = -10 + 7 \/ above = -10 + 8) /\
    (below = -10 - 7 \/ below = -10 - 8).
Proof.
  assert (Ht : trim_ok (-10)) by (unfold trim_ok, MAX_TRIM; lia).
  split; [exact Ht|]. exact (normalize_steering_deadzone_jump (-10) Ht).
Defined.

(* ================================================================== *)
(** * The trim as a saturating counter *)

Lemma handle_trim_event_eq (position value s : Z) :
  value <> 0 ->
  handle_event position (trim_event value) s
  = Outcome (trim_announcement (adjusted_trim s value)) (Ok tt)
            (adjusted_trim s value).
Proof.
  intros Hv. rewrite (handle_trim_event position value s Hv).
  apply trim_branch_eq.
Qed.

Lemma adjusted_trim_right (s : Z) :
  trim_ok s -> adjusted_trim s 1 = Z.min (s + 1) 45.
Proof.
  unfold adjusted_trim, clamp_trim, TRIM_STEP. cbn [Z.eqb Pos.eqb].
  range_facts. lia.
Qed.

Lemma adjusted_trim_left (s : Z) :
  trim_ok s -> adjusted_trim s (-1) = Z.max (s - 1) (-45).
Proof.
  unfold adjusted_trim, clamp_trim, TRIM_STEP. cbn [Z.eqb Pos.eqb].
  range_facts. lia.
Qed.

(** X9.  Only the D-pad moves the trim, and by one degree at most: from a
    trim in range, an iteration that changes the trim is handling a D-pad
    X-axis event of value -1 or 1, and no iteration changes the trim by
    more than one degree.  Steering, drive and sound events leave it as it
    is. *)
Theorem trim_changes_only_on_dpad (position : Z) (e : event) (s : Z) :
  trim_ok s ->
  Z.abs (trim_after (handle_event position e s) - s) <= 1
  /\ (trim_after (handle_event position e s) <> s ->
      ev_type e = EV_ABS /\ ev_code e = TRIM_AXIS_CODE
      /\ (ev_value e = -1 \/ ev_value e = 1)).
Proof.
  intros Hs. unfold handle_event.
  destruct ((ev_type e =? EV_ABS) && (ev_code e =? STEERING_AXIS_CODE)).
  { rewrite steering_branch_eq.
    destruct (normalize_steering s (ev_value e)); cbn [trim_after];
      split; (lia || congruence). }
  destruct ((ev_type e =? EV_ABS) && (ev_code e =? TRIM_AXIS_CODE)
            && negb (ev_value e =? 0)) eqn:Hdpad.
  - apply andb_true_iff in Hdpad as [Hdpad _].
    apply andb_true_iff in Hdpad as [Htype Hcode].
    apply Z.eqb_eq in Htype, Hcode.
    rewrite trim_branch_eq. cbn [trim_after].
    unfold adjusted_trim, clamp_trim, TRIM_STEP.
    destruct (Z.eqb_spec (ev_value e) (-1)) as [Hm1|Hm1];
      [|destruct (Z.eqb_spec (ev_value e) 1) as [H1|H1]];
      range_facts; split; try lia; intros Hne;
      repeat split; try assumption; (now left) || (now right) || lia.
  - destruct (ev_type e =? EV_KEY).
    + rewrite (proj2 (key_branch_pure e s)). split; (lia || congruence).
    + cbn [pass ret trim_after]. split; (lia || congruence).
Qed.

Lemma trim_changes_only_on_dpad_example :
  trim_ok 44 /\
  Z.abs (trim_after (handle_event 0 (trim_event 1) 44) - 44) <= 1.
Proof.
  assert (Hs : trim_ok 44) by (unfold trim_ok, MAX_TRIM; lia).
  split; [exact Hs|].
  exact (proj1 (trim_changes_only_on_dpad 0 (trim_event 1) 44 Hs)).
Defined.

(** X10.  The trim is a saturating counter: from a trim [s] in range, [n]
    D-pad right events leave it at [min (s + n) 45] and [n] D-pad left
    events at [max (s - n) (-45)].  Every trim in [-45, 45] is therefore
    reached from the initial 0. *)
Theorem press_trim_saturates (position : Z) (n : nat) (s : Z) :
  trim_ok s ->
  press_trim position 1 n s = Z.min (s + Z.of_nat n) 45
  /\ press_trim position (-1) n s = Z.max (s - Z.of_nat n) (-45).
Proof.
  intros Hs. unfold press_trim.
  induction n as [|n [IHr IHl]].
  - unfold Nat.iter. cbn [nat_rect]. range_facts. lia.
  - rewrite !Nat.iter_succ, IHr, IHl.
    rewrite !handle_trim_event_eq by lia. cbn [trim_after].
    rewrite adjusted_trim_right, adjusted_trim_left by (range_facts; lia).
    lia.
Qed.

Lemma press_trim_saturates_example :
  trim_ok 0 /\
  press_trim 0 1 50 0 = Z.min (0 + Z.of_nat 50) 45
  /\ press_trim 0 (-1) 50 0 = Z.max (0 - Z.of_nat 50) (-45).
Proof.
  assert (Hs : trim_ok 0) by (unfold trim_ok, MAX_TRIM; lia).
  split; [exact Hs|]. exact (press_trim_saturates 0 50 0 Hs).
Defined.

(** X11.  Away from the bounds a left press undoes a right press and the
    other way round; at a bound the pair does not return: left then right
    from 45 is 45 again, but right then left from 45 ends at 44, and
    left then right from -45 ends at -44. *)
Theorem trim_press_round_trip (position position' s : Z) :
  trim_ok s ->
  (s <> 45 ->
   trim_after (read_loop [(position, trim_event 1);
                          (position', trim_event (-1))] Exhausted s) = s)
  /\ (s <> -45 ->
      trim_after (read_loop [(position, trim_event (-1));
                             (position', trim_event 1)] Exhausted s) = s)
  /\ trim_after (read_loop [(position, trim_event 1);
                            (position', trim_event (-1))] Exhausted 45) = 44
  /\ trim_after (read_loop [(position, trim_event (-1));
                            (position', trim_event 1)] Exhausted (-45))
     = -44.
Proof.
  intros Hs.
  assert (Htwo : forall v w t,
             v <> 0 -> w <> 0 ->
             trim_after (read_loop [(position, trim_event v);
                                    (position', trim_event w)] Exhausted t)
             = adjusted_trim (adjusted_trim t v) w).
  { intros v w t Hv Hw. cbn [read_loop]. unfold bind.
    rewrite !handle_trim_event_eq by assumption.
    cbn [returned trim_after].
    rewrite ?handle_trim_event_eq by assumption. reflexivity. }
  rewrite !Htwo by lia.
  split; [|split; [|split; reflexivity]]; intros Hne.
  - rewrite (adjusted_trim_right s Hs).
    rewrite adjusted_trim_left by (range_facts; lia). range_facts. lia.
  - rewrite (adjusted_trim_left s Hs).
    rewrite adjusted_trim_right by (range_facts; lia). range_facts. lia.
Qed.

Lemma trim_press_round_trip_example :
  trim_ok 12 /\ 12 <> 45 /\
  trim_after (read_loop [(0, trim_event 1); (3, trim_event (-1))]
                        Exhausted 12) = 12.
Proof.
  assert (Hs : trim_ok 12) by (unfold trim_ok, MAX_TRIM; lia).
  split; [exact Hs|]. split; [lia|].
  apply (proj1 (trim_press_round_trip 0 3 12 Hs)). lia.
Defined.

(* ================================================================== *)
(** * Laws of the monad and the shape of a run *)

Lemma outcome_eta {A : Type} (r : outcome A) :
  Outcome (emitted r) (returned r) (trim_after r) = r.
Proof. destruct r. reflexivity. Qed.

Lemma bind_ext {A B : Type} (m : M A) (f g : A -> M B) (s : Z) :
  (forall a t, f a t = g a t) -> bind m f s = bind m g s.
Proof.
  intros Hfg. unfold bind.
  destruct (returned (m s)); [rewrite Hfg|]; reflexivity.
Qed.

Lemma bind_assoc {A B C : Type} (m : M A) (f : A -> M B) (g : B -> M C)
  (s : Z) :
  bind (bind m f) g s = bind m (fun a => bind (f a) g) s.
Proof.
  unfold bind. destruct (m s) as [em [a|e] t]; cbn [returned emitted trim_after];
    [|reflexivity].
  destruct (f a t) as [em' [b|e'] t']; cbn [returned emitted trim_after];
    [|reflexivity].
  now rewrite app_assoc.
Qed.

Lemma emitted_bind {A B : Type} (m : M A) (f : A -> M B) (s : Z) :
  emitted (bind m f s)
  = (emitted (m s)
     ++ match returned (m s) with
        | Ok a => emitted (f a (trim_after (m s)))
        | Raise _ => []
        end)%list.
Proof.
  unfold bind. destruct (returned (m s)); cbn [emitted];
    [reflexivity | now rewrite app_nil_r].
Qed.

Lemma returned_bind {A B : Type} (m : M A) (f : A -> M B) (s : Z) :
  returned (bind m f s)
  = match returned (m s) with
    | Ok a => returned (f a (trim_after (m s)))
    | Raise e => Raise e
    end.
Proof. unfold bind. destruct (returned (m s)); reflexivity. Qed.


(** The guarded loop, by the way the iteration ends. *)
Lemma guarded_loop_eq (events : list (Z * event)) (stop : loop_end)
  (s : Z) :
  guarded_loop events stop s
  = let r := read_loop events stop s in
    match returned r with
    | Ok _ =>
        Outcome (emitted r ++ shutdown_sequence) (returned r) (trim_after r)
    | Raise KeyboardInterrupt =>
        Outcome (emitted r ++ [Print interrupted_message]
                 ++ shutdown_sequence ++ shutdown_sequence)
                (Ok tt) (trim_after r)
    | Raise e =>
        Outcome (emitted r ++ shutdown_sequence) (Raise e) (trim_after r)
    end.
Proof.
  unfold guarded_loop, try_finally, try_except. cbv zeta.
  destruct (read_loop events stop s) as [em [[]|e] t];
    cbn [returned emitted trim_after]; [reflexivity|].
  destruct e; cbn [returned emitted trim_after raise];
    rewrite ?app_nil_r; try reflexivity.
  rewrite shutdown_emits. cbn [emitted returned trim_after].
  unfold bind, emit. cbn [returned emitted trim_after].
  rewrite !shutdown_emits. cbn [emitted returned trim_after].
  rewrite <- app_assoc. reflexivity.
Qed.

(** A run once the controller is open. *)
Lemma main_opened_eq (name : string) (events : list (Z * event))
  (stop : loop_end) :
  main (Opened name) events stop
  = let r := guarded_loop events stop steering_trim_initial in
    Outcome ([SetStopAction coast; SteeringReset; Print attempting_message;
              Print ("Successfully connected to: " ++ name);
              Print ready_message] ++ emitted r)
            (returned r) (trim_after r).
Proof.
  unfold main, script. unfold bind at 1. rewrite setup_opened.
  cbn [returned emitted trim_after]. unfold bind at 1.
  reflexivity.
Qed.

(** X12.  Events are handled strictly in sequence: running the loop on two
    batches of events one after the other is running it on the first batch
    and then, from the trim that leaves and unless an iteration raised, on
    the second; nothing is batched, reordered or dropped. *)
Theorem read_loop_app (events1 events2 : list (Z * event)) (stop : loop_end)
  (s : Z) :
  read_loop (events1 ++ events2) stop s
  = bind (read_loop events1 Exhausted) (fun _ => read_loop events2 stop) s.
Proof.
  revert s. induction events1 as [|[position e] rest IH]; intros s.
  - cbn [app read_loop]. unfold bind, pass, ret.
    cbn [returned emitted trim_after app]. now rewrite outcome_eta.
  - cbn [app read_loop]. rewrite bind_assoc.
    apply bind_ext. intros _ t. apply IH.
Qed.

Lemma handle_event_ok (position : Z) (e : event) (s : Z) :
  trim_ok s -> axis_event_ok e = true ->
  returned (handle_event position e s) = Ok tt.
Proof.
  intros Hs He. unfold handle_event. unfold axis_event_ok in He.
  destruct ((ev_type e =? EV_ABS) && (ev_code e =? STEERING_AXIS_CODE)).
  - cbn [negb orb] in He. apply andb_true_iff in He as [Hlo Hhi].
    apply Z.leb_le in Hlo, Hhi.
    rewrite steering_branch_eq.
    rewrite (normalize_steering_exact s (ev_value e) Hs (conj Hlo Hhi)).
    reflexivity.
  - destruct ((ev_type e =? EV_ABS) && (ev_code e =? TRIM_AXIS_CODE)
              && negb (ev_value e =? 0)).
    + now rewrite trim_branch_eq.
    + destruct (ev_type e =? EV_KEY);
        [apply key_branch_pure | reflexivity].
Qed.

Lemma read_loop_ok (events : list (Z * event)) (s : Z) :
  trim_ok s -> events_ok events = true ->
  returned (read_loop events Exhausted s) = Ok tt.
Proof.
  revert s. induction events as [|[position e] rest IH]; intros s Hs Hev.
  - reflexivity.
  - cbn [events_ok forallb snd] in Hev.
    apply andb_true_iff in Hev as [He Hrest].
    cbn [read_loop]. rewrite returned_bind.
    rewrite (handle_event_ok position e s Hs He).
    apply IH; [now apply keeps_handle_event | exact Hrest].
Qed.

(** The loop with another ending, once the events raise nothing. *)
Lemma read_loop_stop (events : list (Z * event)) (stop : loop_end) (s : Z) :
  returned (read_loop events Exhausted s) = Ok tt ->
  let r := read_loop events Exhausted s in
  let cut := read_loop [] stop (trim_after r) in
  read_loop events stop s
  = Outcome (emitted r ++ emitted cut) (returned cut) (trim_after cut).
Proof.
  intros Hok. cbv zeta.
  rewrite <- (app_nil_r events) at 1. rewrite read_loop_app.
  unfold bind. rewrite Hok. reflexivity.
Qed.

(** X13.  With the controller open and every steering event carrying an
    axis value in [0,255], no iteration raises: when the event source runs
    dry the program ends normally, with exit status 0, having run the
    shutdown sequence once after the last event's calls. *)
Theorem in_range_run_ends_normally (name : string)
  (events : list (Z * event)) :
  events_ok events = true ->
  returned (read_loop events Exhausted steering_trim_initial) = Ok tt
  /\ main (Opened name) events Exhausted
     = Outcome ([SetStopAction coast; SteeringReset;
                 Print attempting_message;
                 Print ("Successfully connected to: " ++ name);
                 Print ready_message]
                ++ emitted (read_loop events Exhausted steering_trim_initial)
                ++ shutdown_sequence)
               (Ok tt)
               (trim_after (read_loop events Exhausted steering_trim_initial))
  /\ exit_status (main (Opened name) events Exhausted) = 0.
Proof.
  intros Hev.
  assert (H0 : trim_ok steering_trim_initial)
    by (unfold steering_trim_initial; range_facts; lia).
  pose proof (read_loop_ok events steering_trim_initial H0 Hev) as Hok.
  split; [exact Hok|].
  assert (Hmain : main (Opened name) events Exhausted
     = Outcome ([SetStopAction coast; SteeringReset;
                 Print attempting_message;
                 Print ("Successfully connected to: " ++ name);
                 Print ready_message]
                ++ emitted (read_loop events Exhausted steering_trim_initial)
                ++ shutdown_sequence)
               (Ok tt)
               (trim_after
                  (read_loop events Exhausted steering_trim_initial))).
  { rewrite main_opened_eq, guarded_loop_eq. cbv zeta. rewrite Hok.
    reflexivity. }
  split; [exact Hmain|]. rewrite Hmain. reflexivity.
Qed.

Lemma in_range_run_ends_normally_example :
  events_ok [(0, steering_event 255); (90, key_event ACCEL_CODE 1)] = true
  /\ exit_status (main (Opened "pad")
                       [(0, steering_event 255); (90, key_event ACCEL_CODE 1)]
                       Exhausted) = 0.
Proof.
  split; [reflexivity|].
  apply (in_range_run_ends_normally "pad"
           [(0, steering_event 255); (90, key_event ACCEL_CODE 1)]).
  reflexivity.
Defined.

(** X14.  An operator interrupt ends the program cleanly: with the
    controller open and the steering events in range, an interrupt (while
    the loop waits, or after some calls of an iteration) leaves the calls
    made so far, then the interruption message, then the shutdown sequence
    twice (once from the handler, once from the finally clause); the
    exception is consumed and the exit status is 0. *)
Theorem interrupt_shuts_down_twice (name : string)
  (events : list (Z * event)) (stop : loop_end) :
  events_ok events = true ->
  stop = InterruptedWaiting
  \/ (exists position e calls_done,
        stop = InterruptedHandling position e calls_done) ->
  let r := read_loop events Exhausted steering_trim_initial in
  let cut := read_loop [] stop (trim_after r) in
  main (Opened name) events stop
  = Outcome ([SetStopAction coast; SteeringReset; Print attempting_message;
              Print ("Successfully connected to: " ++ name);
              Print ready_message]
             ++ (emitted r ++ emitted cut)
             ++ [Print interrupted_message]
             ++ shutdown_sequence ++ shutdown_sequence)
            (Ok tt) (trim_after cut)
  /\ exit_status (main (Opened name) events stop) = 0.
Proof.
  intros Hev Hstop. cbv zeta.
  assert (H0 : trim_ok steering_trim_initial)
    by (unfold steering_trim_initial; range_facts; lia).
  pose proof (read_loop_ok events steering_trim_initial H0 Hev) as Hok.
  pose proof (read_loop_stop events stop steering_trim_initial Hok) as Hrl.
  cbv zeta in Hrl.
  assert (Hcut : returned
                   (read_loop [] stop
                      (trim_after
                         (read_loop events Exhausted steering_trim_initial)))
                 = Raise KeyboardInterrupt).
  { destruct Hstop as [-> | [position [e [k ->]]]]; reflexivity. }
  assert (Hmain : main (Opened name) events stop
    = Outcome ([SetStopAction coast; SteeringReset; Print attempting_message;
                Print ("Successfully connected to: " ++ name);
                Print ready_message]
               ++ (emitted (read_loop events Exhausted steering_trim_initial)
                   ++ emitted
                        (read_loop [] stop
                           (trim_after
                              (read_loop events Exhausted
                                 steering_trim_initial))))
               ++ [Print interrupted_message]
               ++ shutdown_sequence ++ shutdown_sequence)
              (Ok tt)
              (trim_after
                 (read_loop [] stop
                    (trim_after
                       (read_loop events Exhausted steering_trim_initial))))).
  { rewrite main_opened_eq, guarded_loop_eq. cbv zeta. rewrite Hrl.
    cbn [returned emitted trim_after]. rewrite Hcut. reflexivity. }
  split; [exact Hmain|]. rewrite Hmain. reflexivity.
Qed.

Lemma interrupt_shuts_down_twice_example :
  events_ok [(0, key_event ACCEL_CODE 1)] = true /\
  main (Opened "pad") [(0, key_event ACCEL_CODE 1)]
       (InterruptedHandling 0 (trim_event 1) 2)
  = Outcome [SetStopAction coast; SteeringReset; Print attempting_message;
             Print "Successfully connected to: pad"; Print ready_message;
             TankOn 100 100;
             Print "Steering Trim updated: 1 degrees";
             Speak "Trim 1 degrees";
             Print interrupted_message;
             TankOff false; SetStopAction brake; SteeringOff;
             TankOff false; SetStopAction brake; SteeringOff]
            (Ok tt) 1.
Proof.
  split; [reflexivity|].
  apply (interrupt_shuts_down_twice "pad" [(0, key_event ACCEL_CODE 1)]
           (InterruptedHandling 0 (trim_event 1) 2) eq_refl).
  right. exists 0, (trim_event 1), 2%nat. reflexivity.
Defined.

Lemma py_int_raises (x : PrimFloat.float) (e : exn) :
  Py.int x = Raise e -> e = OverflowError \/ e = ValueError.
Proof.
  unfold Py.int. destruct (FloatOps.Prim2SF x); intros H;
    inversion H; auto.
Qed.

Lemma handle_event_raises (position : Z) (e : event) (s : Z) (err : exn) :
  returned (handle_event position e s) = Raise err ->
  err = OverflowError \/ err = ValueError.
Proof.
  unfold handle_event.
  destruct ((ev_type e =? EV_ABS) && (ev_code e =? STEERING_AXIS_CODE)).
  - rewrite steering_branch_eq.
    destruct (normalize_steering s (ev_value e)) as [t|err'] eqn:Hn;
      cbn [returned]; [discriminate|].
    intros H. inversion H. subst err'.
    unfold normalize_steering in Hn.
    destruct (is_centered_on_stick (ev_value e)); [discriminate|].
    now apply py_int_raises in Hn.
  - destruct ((ev_type e =? EV_ABS) && (ev_code e =? TRIM_AXIS_CODE)
              && negb (ev_value e =? 0)).
    + rewrite trim_branch_eq. discriminate.
    + destruct (ev_type e =? EV_KEY);
        [rewrite (proj1 (key_branch_pure e s)) | cbn]; discriminate.
Qed.

Lemma read_loop_failed (events : list (Z * event)) (s : Z) :
  exists err,
    returned (read_loop events ReadFailed s) = Raise err
    /\ (err = OSError \/ err = OverflowError \/ err = ValueError).
Proof.
  revert s. induction events as [|[position e] rest IH]; intros s.
  - exists OSError. split; [reflexivity | now left].
  - cbn [read_loop]. rewrite returned_bind.
    destruct (returned (handle_event position e s)) as [[]|err] eqn:Hh.
    + apply IH.
    + exists err. split; [reflexivity|].
      right. now apply (handle_event_raises position e s).
Qed.

(** X15.  Only KeyboardInterrupt is consumed.  When reading the controller
    fails (or an iteration raises) the exception is not swallowed by the
    [except] and [finally] clauses: the shutdown sequence closes the trace
    and the program then ends with that exception, exit status 1.  With the
    steering events in range the exception is the read's OSError. *)
Theorem read_failure_propagates (name : string)
  (events : list (Z * event)) :
  (exists err,
     returned (main (Opened name) events ReadFailed) = Raise err
     /\ (err = OSError \/ err = OverflowError \/ err = ValueError)
     /\ emitted (main (Opened name) events ReadFailed)
        = ([SetStopAction coast; SteeringReset; Print attempting_message;
            Print ("Successfully connected to: " ++ name);
            Print ready_message]
           ++ emitted (read_loop events ReadFailed steering_trim_initial)
           ++ shutdown_sequence)%list)
  /\ exit_status (main (Opened name) events ReadFailed) = 1
  /\ (events_ok events = true ->
      returned (main (Opened name) events ReadFailed) = Raise OSError).
Proof.
  destruct (read_loop_failed events steering_trim_initial)
    as [err [Hret Herr]].
  assert (Hmain : main (Opened name) events ReadFailed
    = Outcome ([SetStopAction coast; SteeringReset; Print attempting_message;
                Print ("Successfully connected to: " ++ name);
                Print ready_message]
               ++ emitted (read_loop events ReadFailed steering_trim_initial)
               ++ shutdown_sequence)
              (Raise err)
              (trim_after
                 (read_loop events ReadFailed steering_trim_initial))).
  { rewrite main_opened_eq, guarded_loop_eq. cbv zeta. rewrite Hret.
    destruct Herr as [-> | [-> | ->]]; reflexivity. }
  split; [|split].
  - exists err. rewrite Hmain.
    split; [reflexivity | split; [exact Herr | reflexivity]].
  - rewrite Hmain. unfold exit_status. cbn [returned].
    destruct Herr as [-> | [-> | ->]]; reflexivity.
  - intros Hev. rewrite Hmain. cbn [returned]. f_equal.
    assert (H0 : trim_ok steering_trim_initial)
      by (unfold steering_trim_initial; range_facts; lia).
    pose proof (read_loop_ok events steering_trim_initial H0 Hev) as Hok.
    pose proof (read_loop_stop events ReadFailed steering_trim_initial Hok)
      as Hrl.
    cbv zeta in Hrl. rewrite Hrl in Hret. cbn [returned read_loop] in Hret.
    inversion Hret. reflexivity.
Qed.

Lemma read_failure_propagates_example :
  events_ok [(0, steering_event 0)] = true /\
  returned (main (Opened "pad") [(0, steering_event 0)] ReadFailed)
  = Raise OSError.
Proof.
  split; [reflexivity|].
  apply (proj2 (proj2 (read_failure_propagates "pad" [(0, steering_event 0)]))).
  reflexivity.
Defined.

(* ================================================================== *)
(** * What a run never commands *)

Lemma forallb_firstn {A : Type} (Q : A -> bool) (n : nat) (l : list A) :
  forallb Q l = true -> forallb Q (firstn n l) = true.
Proof.
  revert l. induction n as [|n IH]; intros [|a l] H; try reflexivity.
  cbn [firstn forallb] in *.
  apply andb_true_iff in H as [Ha Hl]. now rewrite Ha, IH.
Qed.

Section Emission.

(** A property [Q] of single calls that holds of every call that sets no
    motor in motion, and of the calls of every iteration on an event
    accepted by [ok], holds of every call of a whole run. *)
Variable Q : effect -> bool.
Variable ok : event -> bool.

Hypothesis Q_quiet : forall e, motion_call e = false -> Q e = true.
Hypothesis Q_iteration :
  forall position e s,
    ok e = true -> trim_ok s ->
    forallb Q (emitted (handle_event position e s)) = true.

Lemma Q_shutdown_sequence : forallb Q shutdown_sequence = true.
Proof.
  unfold shutdown_sequence. cbn [forallb].
  now rewrite !Q_quiet by reflexivity.
Qed.

Lemma Q_read_loop (events : list (Z * event)) (stop : loop_end) (s : Z) :
  trim_ok s ->
  forallb (fun pe => ok (snd pe)) events = true ->
  match stop with InterruptedHandling _ e _ => ok e | _ => true end = true ->
  forallb Q (emitted (read_loop events stop s)) = true.
Proof.
  revert s. induction events as [|[position e] rest IH];
    intros s Hs Hev Hstop.
  - cbn [read_loop]. destruct stop; try reflexivity.
    unfold interrupted_after. cbn [emitted].
    apply forallb_firstn. now apply Q_iteration.
  - cbn [forallb snd] in Hev. apply andb_true_iff in Hev as [He Hrest].
    cbn [read_loop]. rewrite emitted_bind, forallb_app.
    rewrite (Q_iteration position e s He Hs). cbn [andb].
    destruct (returned (handle_event position e s)); [|reflexivity].
    apply IH; [now apply keeps_handle_event | exact Hrest | exact Hstop].
Qed.

Lemma Q_main (o : open_result) (events : list (Z * event))
  (stop : loop_end) :
  forallb (fun pe => ok (snd pe)) events = true ->
  match stop with InterruptedHandling _ e _ => ok e | _ => true end = true ->
  forallb Q (emitted (main o events stop)) = true.
Proof.
  intros Hev Hstop.
  destruct o as [name| |].
  - assert (H0 : trim_ok steering_trim_initial)
      by (unfold steering_trim_initial, trim_ok, MAX_TRIM; lia).
    pose proof (Q_read_loop events stop steering_trim_initial H0 Hev Hstop)
      as Hloop.
    rewrite main_opened_eq, guarded_loop_eq. cbv zeta.
    destruct (returned (read_loop events stop steering_trim_initial))
      as [u|[]]; cbn [emitted];
      rewrite ?forallb_app, Hloop, ?Q_shutdown_sequence; cbn [forallb andb];
      now rewrite !Q_quiet by reflexivity.
  - rewrite main_not_found. cbn [emitted forallb].
    now rewrite !Q_quiet by reflexivity.
  - rewrite main_denied. cbn [emitted forallb].
    now rewrite !Q_quiet by reflexivity.
Qed.

End Emission.

Lemma steering_call_ok_iteration (position : Z) (e : event) (s : Z) :
  axis_event_ok e = true -> trim_ok s ->
  forallb steering_call_ok (emitted (handle_event position e s)) = true.
Proof.
  intros He Hs. unfold handle_event. unfold axis_event_ok in He.
  destruct ((ev_type e =? EV_ABS) && (ev_code e =? STEERING_AXIS_CODE)).
  - cbn [negb orb] in He. apply andb_true_iff in He as [Hlo Hhi].
    apply Z.leb_le in Hlo, Hhi.
    rewrite steering_branch_eq.
    rewrite (normalize_steering_exact s (ev_value e) Hs (conj Hlo Hhi)).
    cbn [emitted].
    pose proof (normalize_steering_spec_range s (ev_value e) Hs
                  (conj Hlo Hhi)) as Hb.
    assert (Hcall : steering_call_ok
                      (RunToAbsPos
                         (normalize_steering_spec s (ev_value e))
                         STEERING_SPEED coast) = true).
    { cbn [steering_call_ok]. rewrite Z.eqb_refl.
      rewrite !andb_true_iff, !Z.leb_le. range_facts. lia. }
    unfold steering_command.
    destruct (is_centered_on_stick (ev_value e));
      [destruct (1 <? Z.abs (position
                             - normalize_steering_spec s (ev_value e)))|];
      cbn [forallb]; rewrite ?Hcall; reflexivity.
  - destruct ((ev_type e =? EV_ABS) && (ev_code e =? TRIM_AXIS_CODE)
              && negb (ev_value e =? 0)).
    + rewrite trim_branch_eq. cbn [emitted].
      pose proof (clamp_trim_ok
                    (if ev_value e =? -1 then s - TRIM_STEP
                     else if ev_value e =? 1 then s + TRIM_STEP else s))
        as Hc.
      fold (adjusted_trim s (ev_value e)) in Hc.
      assert (Hcall : steering_call_ok
                        (RunToAbsPos (adjusted_trim s (ev_value e))
                           STEERING_SPEED coast) = true).
      { cbn [steering_call_ok]. rewrite Z.eqb_refl.
        rewrite !andb_true_iff, !Z.leb_le. range_facts. lia. }
      unfold trim_announcement. cbn [forallb]. rewrite Hcall. reflexivity.
    + destruct (ev_type e =? EV_KEY); [|reflexivity].
      unfold key_branch.
      repeat match goal with
             | |- context [if ?b then _ else _] => destruct b
             end; reflexivity.
Qed.

Lemma drive_call_ok_iteration (position : Z) (e : event) (s : Z) :
  forallb drive_call_ok (emitted (handle_event position e s)) = true.
Proof.
  unfold handle_event.
  destruct ((ev_type e =? EV_ABS) && (ev_code e =? STEERING_AXIS_CODE)).
  - rewrite steering_branch_eq.
    destruct (normalize_steering s (ev_value e)); [|reflexivity].
    cbn [emitted]. unfold steering_command.
    repeat match goal with
           | |- context [if ?b then _ else _] => destruct b
           end; reflexivity.
  - destruct ((ev_type e =? EV_ABS) && (ev_code e =? TRIM_AXIS_CODE)
              && negb (ev_value e =? 0)).
    + rewrite trim_branch_eq. reflexivity.
    + destruct (ev_type e =? EV_KEY); [|reflexivity].
      unfold key_branch.
      repeat match goal with
             | |- context [if ?b then _ else _] => destruct b
             end; reflexivity.
Qed.

(** X16.  The steering motor is never asked to go beyond 135 degrees: in
    every run whose steering events carry axis values in [0,255], however
    it ends, each absolute-position command has a target in [-135, 135],
    the fixed speed 720 and the coast stop action. *)
Theorem steering_commands_bounded (o : open_result)
  (events : list (Z * event)) (stop : loop_end) :
  events_ok events = true -> stop_ok stop = true ->
  forallb steering_call_ok (emitted (main o events stop)) = true.
Proof.
  intros Hev Hstop.
  apply (Q_main steering_call_ok axis_event_ok).
  - intros [] H; (reflexivity || discriminate H).
  - intros position e s He Hs. now apply steering_call_ok_iteration.
  - exact Hev.
  - destruct stop; (reflexivity || exact Hstop).
Qed.

Lemma steering_commands_bounded_example :
  events_ok [(0, trim_event 1); (0, steering_event 255)] = true /\
  stop_ok InterruptedWaiting = true /\
  forallb steering_call_ok
    (emitted (main (Opened "pad")
                   [(0, trim_event 1); (0, steering_event 255)]
                   InterruptedWaiting)) = true.
Proof.
  split; [reflexivity|]. split; [reflexivity|].
  apply (steering_commands_bounded (Opened "pad")
           [(0, trim_event 1); (0, steering_event 255)] InterruptedWaiting);
    reflexivity.
Defined.

(** X17.  The drive motors are only ever driven straight and at full
    speed: in every run, whatever the events and however it ends, each
    drive command sets both outputs to the same speed, +100 or -100. *)
Theorem drive_commands_full_speed (o : open_result)
  (events : list (Z * event)) (stop : loop_end) :
  forallb drive_call_ok (emitted (main o events stop)) = true.
Proof.
  apply (Q_main drive_call_ok (fun _ => true)).
  - intros [] H; (reflexivity || discriminate H).
  - intros position e s _ _. apply drive_call_ok_iteration.
  - induction events as [|pe rest IH]; [reflexivity | exact IH].
  - destruct stop; reflexivity.
Qed.

(** X18.  A trim adjustment does not leave the steering stuttering: once
    the motor has reached the position the D-pad event commanded (within
    one degree), steering events from a centered stick issue no command. *)
Theorem centered_stick_quiet_after_trim (position value s : Z)
  (position' raw_value : Z) :
  value <> 0 ->
  is_centered_on_stick raw_value = true ->
  let s' := trim_after (handle_event position (trim_event value) s) in
  Z.abs (position' - s') <= 1 ->
  In (RunToAbsPos s' STEERING_SPEED coast)
     (emitted (handle_event position (trim_event value) s))
  /\ handle_event position' (steering_event raw_value) s'
     = Outcome [] (Ok tt) s'.
Proof.
  intros Hv Hc. cbv zeta.
  rewrite (handle_trim_event_eq position value s Hv).
  cbn [trim_after emitted]. intros Hnear. split.
  - unfold trim_announcement. right. right. left. reflexivity.
  - rewrite handle_steering_event, steering_branch_eq.
    cbn [steering_event ev_value].
    unfold normalize_steering. rewrite Hc.
    unfold steering_command. rewrite Hc.
    apply Z.ltb_ge in Hnear. rewrite Hnear. reflexivity.
Qed.

Lemma centered_stick_quiet_after_trim_example :
  1 <> 0 /\ is_centered_on_stick 130 = true /\
  handle_event 4 (steering_event 130) 4 = Outcome [] (Ok tt) 4.
Proof.
  split; [lia|]. split; [reflexivity|].
  apply (centered_stick_quiet_after_trim 0 1 3 4 130); [lia|reflexivity|].
  vm_compute. discriminate.
Defined.

(* ================================================================== *)
(** * An interrupt between the mutation and the clamp *)



